(** * Jekyll Studio API: site lifecycle manager and live-update broadcast

    A shallow embedding of

    - [src/lib/jekyll-manager.ts]   (class [JekyllManager]),
    - [src/pages/api/sites/[id]/serve.ts] (the Serve / Stop route),
    - [pages/api/sites/create.ts]   (the Create route),
    - [src/pages/api/websocket.ts]  (class [WebSocketManager]),

    followed by the properties of the specification that concern them.

    Conventions of the embedding.

    - JavaScript numbers that the code uses as ports and times are [Z].
    - A [Map<string, JekyllSite>] is a [gmap string JekyllSite].  Site objects
      are mutated in place and re-inserted under their own key, so the map
      entry *is* the object; a caller that holds a reference re-reads the entry.
    - Every method of the manager is a computation in the monad [M]: it
      threads the manager state and either returns a value or throws.
    - What the outside world decides (the outcome of a [docker] command, of the
      file-system calls, the value of the clock, the fresh uuid) is an explicit
      argument of the operation that consumes it.
    - One operation runs from its call to its return without another one
      interleaving at its [await] points. *)

From stdpp Require Import gmap strings list fin_maps.
From Stdlib Require Import ZArith.

(** ** JavaScript truthiness helpers *)

(** [a || b] on an optional string: [undefined], [null] and [''] are falsy. *)
Definition strOr (a : option string) (b : string) : string :=
  match a with
  | Some s => if decide (s = "") then b else s
  | None => b
  end.

(** Truthiness of an optional string. *)
Definition strTruthy (a : option string) : bool :=
  match a with
  | Some s => bool_decide (s ≠ "")
  | None => false
  end.

(** Truthiness of an optional number: [undefined] and [0] are falsy. *)
Definition numTruthy (a : option Z) : bool :=
  match a with
  | Some n => bool_decide (n ≠ 0%Z)
  | None => false
  end.

(** ** The manager: [src/lib/jekyll-manager.ts] *)

Module Manager.

(** [status: 'creating' | 'ready' | 'building' | 'serving' | 'error'] *)
Inductive Status := Creating | Ready | Building | Serving | Failed.

#[export] Instance Status_eq_dec : EqDecision Status.
Proof. solve_decision. Defined.

(** [interface JekyllSite].  The field [id] is called [siteId] here. *)
Record JekyllSite := mkSite {
  siteId : string;
  name : string;
  path : string;
  status : Status;
  port : option Z;
  createdAt : Z;
  lastBuilt : option Z
}.

Definition set_status (st : Status) (s : JekyllSite) : JekyllSite :=
  mkSite (siteId s) (name s) (path s) st (port s) (createdAt s) (lastBuilt s).

Definition set_port (p : option Z) (s : JekyllSite) : JekyllSite :=
  mkSite (siteId s) (name s) (path s) (status s) p (createdAt s) (lastBuilt s).

Definition set_lastBuilt (t : option Z) (s : JekyllSite) : JekyllSite :=
  mkSite (siteId s) (name s) (path s) (status s) (port s) (createdAt s) t.

(** [interface BuildResult] *)
Record BuildResult := mkBuildResult {
  success : bool;
  output : string;
  error : option string;
  buildTime : Z
}.

(** The error object with which [execAsync] rejects: non-zero exit, a spawn
    failure or the timeout.  [stdout] and [stderr] may be missing. *)
Record ExecError := mkExecError {
  e_stdout : option string;
  e_stderr : option string;
  e_message : string
}.

(** Outcome of one [await execAsync(command, ...)]. *)
Inductive ExecResult :=
| ExecOk (stdout stderr : string)
| ExecRejected (e : ExecError).

(** What a method can throw. *)
Inductive Exn :=
| JsError (message : string)          (* [new Error(message)] *)
| ExecFailure (e : ExecError)         (* a rejected [execAsync], re-thrown *)
| FsFailure (message : string).       (* a rejected [fs-extra] call *)

Definition exn_message (x : Exn) : string :=
  match x with
  | JsError msg => msg
  | ExecFailure e => e_message e
  | FsFailure msg => msg
  end.

(** The external commands the manager runs, as it formats them. *)
Inductive Command :=
| DockerBuild (siteName : string)
| DockerServe (siteName : string) (servePort : Z)
| DockerDown.

(** The events of the [EventEmitter].  Lifecycle events carry the site object
    as it is when the event is emitted.  [fileChanged] carries the captured
    site object in the source; the embedding keeps its [id], the only field a
    listener of this repository reads from it. *)
Inductive Event :=
| siteStatusChanged (site : JekyllSite)
| siteCreated (site : JekyllSite)
| siteBuilt (site : JekyllSite)
| siteServing (site : JekyllSite)
| siteStopped (site : JekyllSite)
| siteDeleted (site : JekyllSite)
| fileChanged (site_id : string) (filePath : string).

(** A [chokidar] watcher created by [setupFileWatcher]. *)
Record Watcher := mkWatcher {
  w_site : string;      (* id of the site object captured by the closure *)
  w_path : string;
  w_closed : bool
}.

(** A listener registered with [this.once('siteStopped', ...)]: the closure
    captures the site and the watcher (by its creation index). *)
Record StopListener := mkStopListener {
  l_site : string;
  l_watcher : nat
}.

(** State of one [JekyllManager] instance together with the observable trace
    of its effects. *)
Record State := mkState {
  sites : gmap string JekyllSite;
  projectsDir : string;
  watchers : list Watcher;
  onceSiteStopped : list StopListener;
  emitted : list Event;          (* every [this.emit], oldest first *)
  executed : list Command        (* every [execAsync], oldest first *)
}.

Definition set_sites (f : gmap string JekyllSite → gmap string JekyllSite)
    (m : State) : State :=
  mkState (f (sites m)) (projectsDir m) (watchers m) (onceSiteStopped m)
          (emitted m) (executed m).

(** [constructor()] *)
Definition new (cwd : string) : State :=
  mkState ∅ (cwd +:+ "/projects") [] [] [] [].

(** *** The state-and-exception monad of the methods *)

Inductive Result (A : Type) :=
| Returned (a : A)
| Thrown (x : Exn).
Arguments Returned {A} a.
Arguments Thrown {A} x.

Definition M (A : Type) : Type := State → Result A * State.

Definition ret {A} (a : A) : M A := λ m, (Returned a, m).
Definition throw {A} (x : Exn) : M A := λ m, (Thrown x, m).
Definition bind {A B} (c : M A) (k : A → M B) : M B :=
  λ m, match c m with
       | (Returned a, m') => k a m'
       | (Thrown x, m') => (Thrown x, m')
       end.
(** [try { c } catch (x) { h x }] *)
Definition try_catch {A} (c : M A) (h : Exn → M A) : M A :=
  λ m, match c m with
       | (Returned a, m') => (Returned a, m')
       | (Thrown x, m') => h x m'
       end.
Definition get : M State := λ m, (Returned m, m).
Definition modify (f : State → State) : M unit := λ m, (Returned tt, f m).

#[export] Instance M_ret : MRet M := @ret.
#[export] Instance M_bind : MBind M := λ A B k c, bind c k.

(** [this.sites.get(siteId)] followed by
    [if (!site) throw new Error('Site not found')]. *)
Definition getOrThrow (siteId : string) : M JekyllSite :=
  m ← get;
  match sites m !! siteId with
  | Some site => ret site
  | None => throw (JsError "Site not found")
  end.

(** [this.sites.set(siteId, site)] *)
Definition sitesSet (siteId : string) (site : JekyllSite) : M unit :=
  modify (set_sites (insert siteId site)).

(** [await execAsync(command, ...)]: the command is recorded, the outcome is
    the one the environment supplies. *)
Definition execAsync (c : Command) (r : ExecResult) : M (string * string) :=
  modify (λ m, mkState (sites m) (projectsDir m) (watchers m)
                       (onceSiteStopped m) (emitted m) (executed m ++ [c]));;
  match r with
  | ExecOk out err => ret (out, err)
  | ExecRejected e => throw (ExecFailure e)
  end.

(** [watcher.close()] *)
Definition closeWatcher (w : nat) (ws : list Watcher) : list Watcher :=
  alter (λ x, mkWatcher (w_site x) (w_path x) true) w ws.

(** The body of the listener [setupFileWatcher] registers for 'siteStopped'. *)
Definition runStopListener (stoppedSite : JekyllSite) (l : StopListener)
    (ws : list Watcher) : list Watcher :=
  if decide (siteId stoppedSite = l_site l) then closeWatcher (l_watcher l) ws
  else ws.

(** [this.emit(event, payload)].  The event is recorded; for 'siteStopped'
    the listeners registered with [once] are all removed and each is called
    with the payload.  (Node removes a [once] listener when it is invoked,
    whatever the listener then does.) *)
Definition emit (ev : Event) : M unit :=
  modify (λ m,
    match ev with
    | siteStopped stoppedSite =>
        mkState (sites m) (projectsDir m)
                (foldl (λ ws l, runStopListener stoppedSite l ws)
                       (watchers m) (onceSiteStopped m))
                [] (emitted m ++ [ev]) (executed m)
    | _ =>
        mkState (sites m) (projectsDir m) (watchers m) (onceSiteStopped m)
                (emitted m ++ [ev]) (executed m)
    end).

(** [setupFileWatcher(site)] *)
Definition setupFileWatcher (site : JekyllSite) : M unit :=
  modify (λ m,
    mkState (sites m) (projectsDir m)
            (watchers m ++ [mkWatcher (siteId site) (path site) false])
            (onceSiteStopped m ++
               [mkStopListener (siteId site) (length (watchers m))])
            (emitted m) (executed m)).

(** The watcher's 'change' callback: [chokidar] calls it for a modified,
    non-hidden file while the watcher is open, never after [close()]. *)
Definition watcherChange (w : nat) (filePath : string) : M unit :=
  m ← get;
  match watchers m !! w with
  | Some x => if w_closed x then ret tt
              else emit (fileChanged (w_site x) filePath)
  | None => ret tt
  end.

(** The [while (usedPorts.includes(port)) port++] loop.  [fuel] bounds the
    number of iterations; [findAvailablePort_free] shows that the bound
    chosen below is never reached. *)
Fixpoint scanPorts (usedPorts : list Z) (fuel : nat) (port : Z) : Z :=
  match fuel with
  | O => port
  | S fuel' =>
      if decide (port ∈ usedPorts) then scanPorts usedPorts fuel' (port + 1)
      else port
  end.

(** [Array.from(this.sites.values()).map(site => site.port)
      .filter(port => port !== undefined)] *)
Definition usedPorts (m : State) : list Z :=
  omap port (map_to_list (sites m)).*2.

(** [findAvailablePort(startPort = 4000)] *)
Definition findAvailablePort (startPort : Z) : M Z :=
  m ← get;
  ret (scanPorts (usedPorts m) (S (length (usedPorts m))) startPort).

(** [path.join(this.projectsDir, siteName)] for a plain site name. *)
Definition path_join (dir file : string) : string := dir +:+ "/" +:+ file.

(** The part of the generated structure document the manager reads for the
    registry; the rest is only written to disk. *)
Record Structure := mkStructure {
  s_name : option string;
  s_title : string;
  s_description : string
}.

(** [createSite(siteData, structure)].  [uuid] is the value of [uuidv4()],
    [now] the clock, [materialize] the outcome of the block
    [ensureDir; createJekyllStructure; initGitRepo] ([None]: no exception). *)
Definition createSite (siteData_name : option string) (structure : Structure)
    (uuid : string) (now : Z) (materialize : option Exn) : M JekyllSite :=
  let siteName :=
    strOr (s_name structure) (strOr siteData_name ("site-" +:+ uuid)) in
  m0 ← get;
  let sitePath := path_join (projectsDir m0) siteName in
  let site := mkSite uuid siteName sitePath Creating None now None in
  sitesSet uuid site;;
  emit (siteStatusChanged site);;
  match materialize with
  | None =>
      let site := set_status Ready site in
      sitesSet uuid site;;
      emit (siteStatusChanged site);;
      emit (siteCreated site);;
      ret site
  | Some x =>
      let site := set_status Failed site in
      sitesSet uuid site;;
      emit (siteStatusChanged site);;
      throw x
  end.

(** [buildSite(siteId)].  [startTime] and [endTime] are the two readings of
    [Date.now()], [builtAt] the [new Date()] of the success branch. *)
Definition buildSite (siteId : string) (r : ExecResult)
    (startTime builtAt endTime : Z) : M BuildResult :=
  site ← getOrThrow siteId;
  let site := set_status Building site in
  sitesSet siteId site;;
  emit (siteStatusChanged site);;
  try_catch
    (out ← execAsync (DockerBuild (name site)) r;
     let site := set_lastBuilt (Some builtAt) (set_status Ready site) in
     sitesSet siteId site;;
     emit (siteStatusChanged site);;
     emit (siteBuilt site);;
     ret (mkBuildResult true out.1 None (endTime - startTime)))
    (λ x,
     let site := set_status Failed site in
     sitesSet siteId site;;
     emit (siteStatusChanged site);;
     ret (match x with
          | ExecFailure e =>
              mkBuildResult false (strOr (e_stdout e) "")
                (Some (strOr (e_stderr e) (e_message e)))
                (endTime - startTime)
          | _ =>
              mkBuildResult false "" (Some (exn_message x))
                (endTime - startTime)
          end)).

(** [serveSite(siteId, port?)] *)
Definition serveSite (siteId : string) (port : option Z) (r : ExecResult)
    : M Z :=
  site ← getOrThrow siteId;
  servePort ← (if numTruthy port then ret (default 0%Z port)
               else findAvailablePort 4000);
  try_catch
    (execAsync (DockerServe (name site) servePort) r;;
     let site := set_port (Some servePort) (set_status Serving site) in
     sitesSet siteId site;;
     emit (siteStatusChanged site);;
     emit (siteServing site);;
     setupFileWatcher site;;
     ret servePort)
    (λ x,
     let site := set_status Failed site in
     sitesSet siteId site;;
     emit (siteStatusChanged site);;
     throw x).

(** [stopSite(siteId)]: the [catch] only logs to the console. *)
Definition stopSite (siteId : string) (r : ExecResult) : M unit :=
  site ← getOrThrow siteId;
  try_catch
    (execAsync DockerDown r;;
     let site := set_port None (set_status Ready site) in
     sitesSet siteId site;;
     emit (siteStatusChanged site);;
     emit (siteStopped site))
    (λ _, ret tt).

(** [deleteSite(siteId)].  [stop] is the outcome of the [docker compose down]
    that runs when the site is serving, [remove] that of [fs.remove]. *)
Definition deleteSite (siteId : string) (stop : ExecResult)
    (remove : option Exn) : M unit :=
  site ← getOrThrow siteId;
  (if decide (status site = Serving) then stopSite siteId stop else ret tt);;
  match remove with
  | Some x => throw x
  | None =>
      (* [site] is the object [stopSite] may just have mutated *)
      m ← get;
      let site := default site (sites m !! siteId) in
      modify (set_sites (delete siteId));;
      emit (siteDeleted site)
  end.

(** [getSite(siteId)] *)
Definition getSite (siteId : string) (m : State) : option JekyllSite :=
  sites m !! siteId.

(** [getAllSites()] *)
Definition getAllSites (m : State) : list JekyllSite :=
  (map_to_list (sites m)).*2.

End Manager.

(** ** HTTP methods of the route handlers *)

Inductive Method := GET | POST | PUT | DELETE | OtherMethod.

(** ** The Serve / Stop route: [src/pages/api/sites/[id]/serve.ts]

    [POST] is the caller-facing [Serve], [DELETE] the caller-facing [Stop]. *)

Module ServeRoute.
Import Manager.

(** The JSON value of [req.body.port], as far as the handler tells values
    apart. *)
Inductive BodyPort :=
| PortAbsent                 (* [undefined] or [null] *)
| PortNumber (n : Z)         (* a number *)
| PortNotNumber (truthy : bool).  (* any other JSON value *)

(** [port && ...]: truthiness of the value. *)
Definition portTruthy (bp : BodyPort) : bool :=
  match bp with
  | PortAbsent => false
  | PortNumber n => bool_decide (n ≠ 0%Z)
  | PortNotNumber t => t
  end.

(** [typeof port !== 'number' || port < 3000 || port > 9999] *)
Definition portInvalid (bp : BodyPort) : bool :=
  match bp with
  | PortNumber n => bool_decide (n < 3000)%Z || bool_decide (n > 9999)%Z
  | _ => true
  end.

(** The value as [serveSite] sees it in [port || ...]: a falsy value selects
    the automatic allocation exactly as [undefined] does. *)
Definition portArgument (bp : BodyPort) : option Z :=
  match bp with
  | PortNumber n => Some n
  | _ => None
  end.

(** The responses of the handler, with their HTTP status. *)
Inductive Response :=
| SiteIdRequired                       (* 400 'Site ID is required' *)
| SiteNotFound                         (* 404 'Site not found' *)
| PortOutOfRange                       (* 400 'Port must be a number between 3000 and 9999' *)
| AlreadyServing (currentPort : option Z)  (* 409 'Site is already being served' *)
| ServeStarted (port : Z) (id name : string)   (* 200, status 'serving' *)
| NotServing                           (* 400 'Site is not currently being served' *)
| StopDone                             (* 200 'Site server stopped successfully' *)
| InternalError (message : string)     (* 500 *)
| MethodNotAllowed.                    (* 405 *)

Definition http_status (r : Response) : nat :=
  match r with
  | SiteIdRequired | PortOutOfRange | NotServing => 400
  | SiteNotFound => 404
  | AlreadyServing _ => 409
  | ServeStarted _ _ _ | StopDone => 200
  | InternalError _ => 500
  | MethodNotAllowed => 405
  end.

(** [handler(req, res)].  [securityPassed] is the result of
    [applySecurityMiddleware]; when it is [false] the middleware has already
    answered and the handler sends nothing ([None]).  [id] is [req.query.id]
    when it is a string.  [r] is the outcome of the one [docker] command the
    request may run. *)
Definition handler (securityPassed : bool) (method : Method)
    (id : option string) (body_port : BodyPort) (r : ExecResult)
    (m : State) : option Response * State :=
  if negb securityPassed then (None, m) else
  match id with
  | None => (Some SiteIdRequired, m)
  | Some id =>
    if decide (id = "") then (Some SiteIdRequired, m) else
    match getSite id m with
    | None => (Some SiteNotFound, m)
    | Some site =>
      match method with
      | POST =>
          if portTruthy body_port && portInvalid body_port
          then (Some PortOutOfRange, m)
          else if decide (status site = Serving)
          then (Some (AlreadyServing (port site)), m)
          else
            match serveSite id (portArgument body_port) r m with
            | (Returned servePort, m') =>
                (Some (ServeStarted servePort (siteId site) (name site)), m')
            | (Thrown x, m') => (Some (InternalError (exn_message x)), m')
            end
      | DELETE =>
          if decide (status site ≠ Serving) then (Some NotServing, m)
          else
            match stopSite id r m with
            | (Returned _, m') => (Some StopDone, m')
            | (Thrown x, m') => (Some (InternalError (exn_message x)), m')
            end
      | _ => (Some MethodNotAllowed, m)
      end
    end
  end.

End ServeRoute.

(** ** The Create route: [pages/api/sites/create.ts] *)

Module CreateRoute.
Import Manager.

Inductive Response :=
| MethodNotAllowed                     (* 405 *)
| PromptRequired                       (* 400 'Prompt is required' *)
| InvalidName (error : string)         (* 400, the validator's message *)
| NameExists                           (* 409 'Site name already exists' *)
| Created (site : JekyllSite) (buildResult : BuildResult)   (* 201 *)
| InternalError (message : string).    (* 500 *)

Definition http_status (r : Response) : nat :=
  match r with
  | MethodNotAllowed => 405
  | PromptRequired | InvalidName _ => 400
  | NameExists => 409
  | Created _ _ => 201
  | InternalError _ => 500
  end.

Section Handler.

(** The two helpers of [middleware/cors-rate-limit] the handler calls.  They
    are regular-expression string filters; the handler is embedded for
    arbitrary ones.  [validateSiteName] returns the error message of an
    invalid name. *)
Variable sanitizeInput : string → string.
Variable validateSiteName : string → option string.

(** [handler(req, res)].  [body_name] and [body_prompt] are the string fields
    of the request body, [generated] the outcome of
    [gemini.generateSiteStructure]; the remaining arguments are those of
    [createSite] and [buildSite]. *)
Definition handler (securityPassed : bool) (method : Method)
    (body_name body_prompt : option string)
    (generated : Exn + Structure)
    (uuid : string) (now : Z) (materialize : option Exn)
    (build : ExecResult) (startTime builtAt endTime : Z)
    (m : State) : option Response * State :=
  if negb securityPassed then (None, m) else
  match method with
  | POST =>
    if negb (strTruthy body_prompt) then (Some PromptRequired, m) else
    let sanitizedName :=
      if strTruthy body_name then sanitizeInput <$> body_name else None in
    match (if strTruthy sanitizedName
           then sanitizedName ≫= validateSiteName else None) with
    | Some err => (Some (InvalidName err), m)
    | None =>
      let nameExists :=
        bool_decide (Exists (λ site, Some (name site) = sanitizedName)
                            (getAllSites m)) in
      if strTruthy sanitizedName && nameExists then (Some NameExists, m) else
      match generated with
      | inl x => (Some (InternalError (exn_message x)), m)
      | inr structure =>
        let finalName :=
          if strTruthy sanitizedName then sanitizedName
          else s_name structure in
        match createSite finalName structure uuid now materialize m with
        | (Thrown x, m') => (Some (InternalError (exn_message x)), m')
        | (Returned site, m') =>
          match buildSite (siteId site) build startTime builtAt endTime m' with
          | (Thrown x, m'') => (Some (InternalError (exn_message x)), m'')
          | (Returned buildResult, m'') =>
              (* [site] is the object [buildSite] has just mutated *)
              (Some (Created (default site (sites m'' !! siteId site))
                             buildResult), m'')
          end
        end
      end
    end
  | _ => (Some MethodNotAllowed, m)
  end.

End Handler.

End CreateRoute.

(** ** The live-update layer: [src/pages/api/websocket.ts] *)

Module WS.
Import Manager.

(** [ws.readyState] *)
Inductive ReadyState := CONNECTING | OPEN | CLOSING | CLOSED.

#[export] Instance ReadyState_eq_dec : EqDecision ReadyState.
Proof. solve_decision. Defined.

(** The [data] field of an outbound message. *)
Inductive Data :=
| NoData
| ConnectedData (clientId : string) (serverTime : Z)
| SitesData (all : list JekyllSite)
| SiteData (site : JekyllSite)
| FileChangedData (site_id : string) (filePath : string)
| SiteIdData (site_id : string)
| MessageData (message : string).

(** [interface WebSocketMessage] *)
Record WebSocketMessage := mkMessage {
  type : string;
  data : Data;
  msg_siteId : option string;
  timestamp : option Z
}.

(** [interface ExtendedWebSocket], one socket object.  [inClients] tells
    whether the object is an element of [this.clients]: an object is added to
    that set once, when it is created, so the set is the sockets with the flag
    up, in creation order.  [sent] is what [ws.send] has been given, oldest
    first, and [pings] counts the [ws.ping()] calls. *)
Record ExtendedWebSocket := mkSocket {
  id : string;
  isAlive : bool;
  subscribedSites : gset string;
  readyState : ReadyState;
  inClients : bool;
  sent : list WebSocketMessage;
  pings : nat
}.

(** The state of the [WebSocketManager]: every socket object created so far,
    by creation index. *)
Abbreviation Sockets := (list ExtendedWebSocket).

Definition set_isAlive (b : bool) (ws : ExtendedWebSocket) :=
  mkSocket (id ws) b (subscribedSites ws) (readyState ws) (inClients ws)
           (sent ws) (pings ws).

Definition set_subscribedSites (f : gset string → gset string)
    (ws : ExtendedWebSocket) :=
  mkSocket (id ws) (isAlive ws) (f (subscribedSites ws)) (readyState ws)
           (inClients ws) (sent ws) (pings ws).

Definition set_inClients (b : bool) (ws : ExtendedWebSocket) :=
  mkSocket (id ws) (isAlive ws) (subscribedSites ws) (readyState ws) b
           (sent ws) (pings ws).

Definition set_readyState (r : ReadyState) (ws : ExtendedWebSocket) :=
  mkSocket (id ws) (isAlive ws) (subscribedSites ws) r (inClients ws)
           (sent ws) (pings ws).

(** [ws.send(JSON.stringify(m))] *)
Definition send (m : WebSocketMessage) (ws : ExtendedWebSocket) :=
  mkSocket (id ws) (isAlive ws) (subscribedSites ws) (readyState ws)
           (inClients ws) (sent ws ++ [m]) (pings ws).

(** [ws.ping()]: a ping frame leaves only while the socket is open; on a
    socket that is closing the call is taken to do nothing (it does not
    throw). *)
Definition ping (ws : ExtendedWebSocket) :=
  if decide (readyState ws = OPEN)
  then mkSocket (id ws) (isAlive ws) (subscribedSites ws) (readyState ws)
                (inClients ws) (sent ws) (S (pings ws))
  else ws.

(** [ws.terminate()]: the socket is destroyed; it is never open again. *)
Definition terminate (ws : ExtendedWebSocket) :=
  if decide (readyState ws = CLOSED) then ws else set_readyState CLOSING ws.

(** [sendToClient(ws, message)]: only an open socket is written to, and
    the message is stamped with the send time.  [ws.send] on an open socket
    is taken to accept the frame; were it to throw, the [catch] would log and
    go on. *)
Definition sendToClient (now : Z) (message : WebSocketMessage)
    (ws : ExtendedWebSocket) : ExtendedWebSocket :=
  if decide (readyState ws = OPEN)
  then send (mkMessage (type message) (data message) (msg_siteId message)
                       (Some now)) ws
  else ws.

(** [this.clients.forEach(callback)]: the callback runs on the sockets that
    are elements of the set. *)
Definition onClient (callback : ExtendedWebSocket → ExtendedWebSocket)
    (ws : ExtendedWebSocket) : ExtendedWebSocket :=
  if inClients ws then callback ws else ws.

Definition forEachClient (callback : ExtendedWebSocket → ExtendedWebSocket)
    (s : Sockets) : Sockets :=
  onClient callback <$> s.

(** [broadcast(message, filterFn?)] *)
Definition broadcast (now : Z) (message : WebSocketMessage)
    (filterFn : option (ExtendedWebSocket → bool)) (s : Sockets) : Sockets :=
  forEachClient
    (λ ws,
       if match filterFn with None => true | Some f => f ws end
       then sendToClient now message ws
       else ws) s.

(** [broadcastToSiteSubscribers(siteId, message)] *)
Definition broadcastToSiteSubscribers (now : Z) (siteId : string)
    (message : WebSocketMessage) (s : Sockets) : Sockets :=
  broadcast now message
    (Some (λ ws, bool_decide (siteId ∈ subscribedSites ws))) s.

(** The object literal each listener of [setupJekyllManagerListeners] builds
    for its event. *)
Definition eventMessage (ev : Event) : WebSocketMessage :=
  match ev with
  | siteStatusChanged site =>
      mkMessage "siteStatusChanged" (SiteData site) (Some (siteId site)) None
  | fileChanged sid filePath =>
      mkMessage "fileChanged" (FileChangedData sid filePath) (Some sid) None
  | siteBuilt site =>
      mkMessage "siteBuilt" (SiteData site) (Some (siteId site)) None
  | siteCreated site =>
      mkMessage "siteCreated" (SiteData site) (Some (siteId site)) None
  | siteDeleted site =>
      mkMessage "siteDeleted" (SiteData site) (Some (siteId site)) None
  | siteServing site =>
      mkMessage "siteServing" (SiteData site) (Some (siteId site)) None
  | siteStopped site =>
      mkMessage "siteStopped" (SiteData site) (Some (siteId site)) None
  end.

(** [setupJekyllManagerListeners()]: what the manager's listeners do when
    the [JekyllManager] instance of this module emits [ev]. *)
Definition onManagerEvent (now : Z) (ev : Event) (s : Sockets) : Sockets :=
  match ev with
  | fileChanged sid _ => broadcastToSiteSubscribers now sid (eventMessage ev) s
  | _ => broadcast now (eventMessage ev) None s
  end.

(** [handleConnection(ws, req)]: the new socket object joins [this.clients]
    and is sent the acknowledgment and the sites snapshot.  [clientId] is
    the value of [generateClientId()], [all] of [getAllSites()]. *)
Definition handleConnection (now : Z) (clientId : string)
    (all : list JekyllSite) (s : Sockets) : Sockets :=
  let extWs := mkSocket clientId true ∅ OPEN true [] 0 in
  s ++ [sendToClient now (mkMessage "sites" (SitesData all) None None)
         (sendToClient now
            (mkMessage "connected" (ConnectedData clientId now) None None)
            extWs)].

(** A client frame after [JSON.parse]: its [type] and [siteId] fields. *)
Record ClientMessage := mkClientMessage {
  c_type : string;
  c_siteId : option string
}.

(** [handleMessage(ws, message)].  [parsed] is [None] when [JSON.parse] (or
    reading [data.type]) throws. *)
Definition handleMessage (now : Z) (all : list JekyllSite)
    (parsed : option ClientMessage) (ws : ExtendedWebSocket)
    : ExtendedWebSocket :=
  match parsed with
  | None =>
      sendToClient now
        (mkMessage "error" (MessageData "Invalid message format") None None) ws
  | Some d =>
      if decide (c_type d = "ping") then
        sendToClient now (mkMessage "pong" NoData None None) ws
      else if decide (c_type d = "subscribe") then
        match c_siteId d with
        | Some sid =>
            if decide (sid = "") then ws else
            sendToClient now
              (mkMessage "subscribed" (SiteIdData sid) None None)
              (set_subscribedSites (λ subs, {[sid]} ∪ subs) ws)
        | None => ws
        end
      else if decide (c_type d = "unsubscribe") then
        match c_siteId d with
        | Some sid =>
            if decide (sid = "") then ws else
            sendToClient now
              (mkMessage "unsubscribed" (SiteIdData sid) None None)
              (set_subscribedSites (λ subs, subs ∖ {[sid]}) ws)
        | None => ws
        end
      else if decide (c_type d = "getSites") then
        sendToClient now (mkMessage "sites" (SitesData all) None None) ws
      else
        sendToClient now
          (mkMessage "error" (MessageData "Unknown message type") None None) ws
  end.

(** One pass of the [setInterval] callback of [startHeartbeat]. *)
Definition heartbeat (s : Sockets) : Sockets :=
  forEachClient
    (λ ws,
       if negb (isAlive ws)
       then set_inClients false (terminate ws)
       else ping (set_isAlive false ws)) s.

(** What can happen to the manager between two of its own steps.  Socket
    callbacks name their socket by its creation index. *)
Inductive Action :=
| Connection (now : Z) (clientId : string) (all : list JekyllSite)
| Message (c : nat) (now : Z) (all : list JekyllSite)
          (parsed : option ClientMessage)         (* [extWs.on('message')] *)
| Pong (c : nat)                                  (* [extWs.on('pong')] *)
| Close (c : nat)                                 (* [extWs.on('close')] *)
| SocketError (c : nat)                           (* [extWs.on('error')] *)
| Published (now : Z) (ev : Event)                (* a manager event *)
| HeartbeatTick.

Definition step (a : Action) (s : Sockets) : Sockets :=
  match a with
  | Connection now clientId all => handleConnection now clientId all s
  | Message c now all parsed => alter (handleMessage now all parsed) c s
  | Pong c => alter (set_isAlive true) c s
  | Close c => alter (λ ws, set_inClients false (set_readyState CLOSED ws)) c s
  | SocketError c => alter (set_inClients false) c s
  | Published now ev => onManagerEvent now ev s
  | HeartbeatTick => heartbeat s
  end.

Definition run (acts : list Action) (s : Sockets) : Sockets :=
  foldl (λ s a, step a s) s acts.

(** [c] is an element of [this.clients]. *)
Definition member (c : nat) (s : Sockets) : Prop :=
  ∃ ws, s !! c = Some ws ∧ inClients ws = true.

(** The messages of [c] that carry a manager event. *)
Definition isEventMessage (m : WebSocketMessage) : bool :=
  bool_decide (type m ∈ ["siteStatusChanged"; "siteCreated"; "siteBuilt";
                         "siteServing"; "siteStopped"; "siteDeleted";
                         "fileChanged"]).

Definition eventsOf (ws : ExtendedWebSocket) : list WebSocketMessage :=
  filter (λ m, isEventMessage m = true) (sent ws).

Definition eventsReceived (c : nat) (s : Sockets) : list WebSocketMessage :=
  match s !! c with
  | Some ws => eventsOf ws
  | None => []
  end.

(** [message] as [sendToClient] stamps it. *)
Definition stamped (now : Z) (message : WebSocketMessage) : WebSocketMessage :=
  mkMessage (type message) (data message) (msg_siteId message) (Some now).

(** The effect of one action on the socket of index [c], once it exists. *)
Definition stepSocket (a : Action) (c : nat) (ws : ExtendedWebSocket)
    : ExtendedWebSocket :=
  match a with
  | Connection _ _ _ => ws
  | Message c' now all parsed =>
      if decide (c' = c) then handleMessage now all parsed ws else ws
  | Pong c' => if decide (c' = c) then set_isAlive true ws else ws
  | Close c' =>
      if decide (c' = c) then set_inClients false (set_readyState CLOSED ws)
      else ws
  | SocketError c' => if decide (c' = c) then set_inClients false ws else ws
  | Published now ev =>
      onClient
        (λ ws,
           if match ev with
              | fileChanged sid _ => bool_decide (sid ∈ subscribedSites ws)
              | _ => true
              end
           then sendToClient now (eventMessage ev) ws
           else ws) ws
  | HeartbeatTick =>
      onClient
        (λ ws,
           if negb (isAlive ws)
           then set_inClients false (terminate ws)
           else ping (set_isAlive false ws)) ws
  end.

Definition runSocket (acts : list Action) (c : nat) (ws : ExtendedWebSocket)
    : ExtendedWebSocket :=
  foldl (λ ws a, stepSocket a c ws) ws acts.

(** Whenever socket [c] exists it is marked alive. *)
Definition aliveIfPresent (c : nat) (s : Sockets) : Prop :=
  ∀ ws, s !! c = Some ws → isAlive ws = true.

End WS.

(** ** Notions used by the statements *)

Module Props.
Import Manager.

(** Another site than [id] is recorded as serving on port [p]. *)
Definition heldByOtherServing (m : State) (id : string) (p : Z) : Prop :=
  ∃ i s, i ≠ id ∧ sites m !! i = Some s ∧ status s = Serving ∧ port s = Some p.

(** [p] is the lowest port from 4000 on that no other serving site holds. *)
Definition lowestFreeAmongServing (m : State) (id : string) (p : Z) : Prop :=
  (4000 ≤ p)%Z ∧ ¬ heldByOtherServing m id p ∧
  ∀ q, (4000 ≤ q < p)%Z → heldByOtherServing m id q.

(** Some record of the registry, whatever its status, stores port [p]. *)
Definition recorded (m : State) (p : Z) : Prop :=
  ∃ i s, sites m !! i = Some s ∧ port s = Some p.

(** The ports stored in the records of a registry are pairwise distinct. *)
Definition portsDistinct (σ : gmap string JekyllSite) : Prop :=
  ∀ i j s t p, i ≠ j → σ !! i = Some s → σ !! j = Some t →
    port s = Some p → port t ≠ Some p.

(** No two distinct serving sites hold the same port. *)
Definition servingPortsDistinct (m : State) : Prop :=
  ∀ i j s t p, i ≠ j → sites m !! i = Some s → sites m !! j = Some t →
    status s = Serving → status t = Serving →
    port s = Some p → port t ≠ Some p.

(** The names of the registered sites are pairwise distinct. *)
Definition namesDistinct (m : State) : Prop :=
  ∀ i j s t, i ≠ j → sites m !! i = Some s → sites m !! j = Some t →
    name s ≠ name t.

(** The state a computation leaves behind. *)
Definition after {A} (c : M A) (m : State) : State := (c m).2.

End Props.

(** ** Sequences of operations *)

Module Ops.
Import Manager Props.

(** One caller-facing operation on the manager, with what the environment
    answers to it. *)
Inductive Op :=
| OpCreate (siteData_name : option string) (structure : Structure)
           (uuid : string) (now : Z) (materialize : option Exn)
| OpBuild (id : string) (r : ExecResult) (startTime builtAt endTime : Z)
| OpServe (id : string) (requested : option Z) (r : ExecResult)
| OpStop (id : string) (r : ExecResult)
| OpDelete (id : string) (stop : ExecResult) (remove : option Exn).

Definition perform (o : Op) (m : State) : State :=
  match o with
  | OpCreate n structure uuid now materialize =>
      after (createSite n structure uuid now materialize) m
  | OpBuild id r startTime builtAt endTime =>
      after (buildSite id r startTime builtAt endTime) m
  | OpServe id requested r => after (serveSite id requested r) m
  | OpStop id r => after (stopSite id r) m
  | OpDelete id stop remove => after (deleteSite id stop remove) m
  end.

Definition performAll (ops : list Op) (m : State) : State :=
  foldl (λ m o, perform o m) m ops.

(** The operation leaves the choice of the port to the manager. *)
Definition allocating (o : Op) : Prop :=
  match o with
  | OpServe _ requested _ => numTruthy requested = false
  | _ => True
  end.

End Ops.

(** ** A small fleet used to exercise the code *)

Module Scenario.
Import Manager Props.

Definition ok : ExecResult := ExecOk "" "".

Definition structureNamed (n : string) : Structure :=
  mkStructure (Some n) "A site" "Generated".

(** A fresh manager in which sites "alpha" and "beta" have been created. *)
Definition fleet : State :=
  after (createSite None (structureNamed "beta") "id-b" 2 None)
    (after (createSite None (structureNamed "alpha") "id-a" 1 None)
       (new "/app")).

(** [POST /api/sites/id/serve] with body [{port}], the preview starting. *)
Definition postServe (id : string) (bp : ServeRoute.BodyPort) (m : State) :=
  ServeRoute.handler true POST (Some id) bp ok m.

(** Both sites asked to serve on port 5000, one request after the other. *)
Definition bothOn5000 : State :=
  (postServe "id-b" (ServeRoute.PortNumber 5000)
     (postServe "id-a" (ServeRoute.PortNumber 5000) fleet).2).2.

(** Both sites serving on allocated ports, each with its watcher. *)
Definition bothServing : State :=
  after (serveSite "id-b" None ok) (after (serveSite "id-a" None ok) fleet).

(** "beta" is stopped first, then "alpha". *)
Definition bothStopped : State :=
  after (stopSite "id-a" ok) (after (stopSite "id-b" ok) bothServing).

(** "alpha" is served, then rebuilt while it is serving. *)
Definition alphaRebuilt : State :=
  after (buildSite "id-a" ok 10 11 12) (after (serveSite "id-a" None ok) fleet).

(** [POST /api/sites/create] with body [{prompt: 'a blog'}] and no name; the
    generator answers with a structure named "alpha", the files are written
    and the build succeeds. *)
Definition postCreateAlphaAgain (sanitizeInput : string → string)
    (validateSiteName : string → option string) :=
  CreateRoute.handler sanitizeInput validateSiteName true POST
    None (Some "a blog") (inr (structureNamed "alpha"))
    "id-c" 3 None ok 4 5 6 fleet.

(** "alpha" serving on its allocated port. *)
Definition alphaServing : State := after (serveSite "id-a" None ok) fleet.

(** One client has connected and subscribed to "alpha". *)
Definition subscribed : list WS.ExtendedWebSocket :=
  WS.run [WS.Connection 1 "client_1" [];
          WS.Message 0 2 [] (Some (WS.mkClientMessage "subscribe"
                                                       (Some "id-a")))] [].

End Scenario.

(** ** Site-name validation: [validateSiteName] of [middleware/cors-rate-limit] *)

Module Middleware.

(** A JavaScript string is read as its sequence of code units, a Rocq
    [string] holding those below 256. *)

(** The character class [[a-zA-Z0-9_-]]. *)
Definition isNameChar (c : Ascii.ascii) : bool :=
  let n := Ascii.nat_of_ascii c in
  (97 <=? n) && (n <=? 122) || (65 <=? n) && (n <=? 90) ||
  (48 <=? n) && (n <=? 57) || (n =? 95) || (n =? 45).

(** [/^[a-zA-Z0-9_-]+$/.test(name)] *)
Definition matchesNamePattern (name : string) : bool :=
  negb (bool_decide (name = "")) &&
  forallb isNameChar (String.list_ascii_of_string name).

(** [toLowerCase()] on one code unit of a string that matches the pattern:
    only the letters A to Z change. *)
Definition lowerChar (c : Ascii.ascii) : Ascii.ascii :=
  let n := Ascii.nat_of_ascii c in
  if (65 <=? n) && (n <=? 90) then Ascii.ascii_of_nat (n + 32) else c.

Fixpoint toLowerCase (s : string) : string :=
  match s with
  | EmptyString => EmptyString
  | String c rest => String (lowerChar c) (toLowerCase rest)
  end.

Definition reservedNames : list string :=
  ["api"; "admin"; "www"; "mail"; "ftp"; "localhost"; "example"].

(** [validateSiteName(name)] on a string: [None] is [{ isValid: true }], [Some
    error] is [{ isValid: false, error }]. *)
Definition validateSiteName (name : string) : option string :=
  if decide (name = "") then Some "Site name is required"
  else if (String.length name <? 3) || (50 <? String.length name)
  then Some "Site name must be between 3 and 50 characters"
  else if negb (matchesNamePattern name)
  then Some "Site name can only contain letters, numbers, hyphens, and underscores"
  else if bool_decide (toLowerCase name ∈ reservedNames)
  then Some "Site name is reserved"
  else None.

End Middleware.

(** ** The Build route: [pages/api/sites/[id]/build.ts] *)

Module BuildRoute.
Import Manager.

Inductive Response :=
| MethodNotAllowed                     (* 405 *)
| SiteIdRequired                       (* 400 'Site ID is required' *)
| SiteNotFound                         (* 404 'Site not found' *)
| AlreadyBuilding                      (* 409 'Site is already being built' *)
| BuildReport (buildResult : BuildResult) (id name : string)
              (status : Status) (lastBuilt : option Z)
                                       (* 200 when it succeeded, else 400 *)
| InternalError (message : string).    (* 500 *)

Definition http_status (r : Response) : nat :=
  match r with
  | MethodNotAllowed => 405
  | SiteIdRequired => 400
  | SiteNotFound => 404
  | AlreadyBuilding => 409
  | BuildReport buildResult _ _ _ _ =>
      if success buildResult then 200 else 400
  | InternalError _ => 500
  end.

(** [handler(req, res)] *)
Definition handler (securityPassed : bool) (method : Method)
    (id : option string) (r : ExecResult) (startTime builtAt endTime : Z)
    (m : State) : option Response * State :=
  if negb securityPassed then (None, m) else
  match method with
  | POST =>
    match id with
    | None => (Some SiteIdRequired, m)
    | Some id =>
      if decide (id = "") then (Some SiteIdRequired, m) else
      match getSite id m with
      | None => (Some SiteNotFound, m)
      | Some site =>
        if decide (status site = Building) then (Some AlreadyBuilding, m)
        else
          match buildSite id r startTime builtAt endTime m with
          | (Returned buildResult, m') =>
              (* [site] is the object [buildSite] has just mutated *)
              let site := default site (sites m' !! id) in
              (Some (BuildReport buildResult (siteId site) (name site)
                                 (status site) (lastBuilt site)), m')
          | (Thrown x, m') => (Some (InternalError (exn_message x)), m')
          end
      end
    end
  | _ => (Some MethodNotAllowed, m)
  end.

End BuildRoute.

(** ** The site route: [pages/api/sites/[id]/index.ts], [DELETE] *)

Module SiteRoute.
Import Manager.

Inductive Response :=
| SiteIdRequired                       (* 400 'Site ID is required' *)
| SiteNotFound                         (* 404 'Site not found' *)
| Deleted (id name : string)           (* 200 'Site deleted successfully' *)
| InternalError (message : string).    (* 500 *)

(** The [DELETE] branch of [handler(req, res)].  [stop1] is the outcome of
    the stop the handler asks for, [stop2] of the one [deleteSite] asks for
    when the site is still serving, [remove] that of [fs.remove]. *)
Definition handleDelete (securityPassed : bool) (id : option string)
    (stop1 stop2 : ExecResult) (remove : option Exn)
    (m : State) : option Response * State :=
  if negb securityPassed then (None, m) else
  match id with
  | None => (Some SiteIdRequired, m)
  | Some id =>
    if decide (id = "") then (Some SiteIdRequired, m) else
    match getSite id m with
    | None => (Some SiteNotFound, m)
    | Some site =>
      match (if decide (status site = Serving) then stopSite id stop1
             else mret tt) m with
      | (Thrown x, m') => (Some (InternalError (exn_message x)), m')
      | (Returned _, m') =>
        match deleteSite id stop2 remove m' with
        | (Thrown x, m'') => (Some (InternalError (exn_message x)), m'')
        | (Returned _, m'') => (Some (Deleted (siteId site) (name site)), m'')
        end
      end
    end
  end.

End SiteRoute.

(** ** Connection statistics: [getStats] of [websocket.ts] *)

Module WSStats.
Import WS.

(** A value held by the plain object [clientsBySubscriptions]: a number,
    or the string that [+ 1] makes of anything else. *)
Inductive StatValue :=
| Count (n : nat)
| Text (t : string).

Section PlainObject.

(** [clientsBySubscriptions] is an object literal: under a name it does not
    own it answers with what it inherits from [Object.prototype].
    [inheritedText name] is the string form of the function inherited under
    [name] ('constructor', 'toString', 'valueOf', 'hasOwnProperty', ...),
    [None] for every other name.  The name ['__proto__'] is apart: reading it
    gives the prototype, and assigning a string to it is ignored. *)
Variable inheritedText : string → option string.

(** [(clientsBySubscriptions[siteId] || 0) + 1], from the present value
    [held] of the property. *)
Definition plusOne (siteId : string) (held : option StatValue) : StatValue :=
  match held with
  | Some (Count n) => Count (n + 1)
  | Some (Text t) => if decide (t = "") then Count 1 else Text (t +:+ "1")
  | None =>
      match inheritedText siteId with
      | Some t => Text (t +:+ "1")
      | None => Count 1
      end
  end.

(** [clientsBySubscriptions[siteId] = (clientsBySubscriptions[siteId] || 0) + 1] *)
Definition countSubscription (siteId : string)
    (clientsBySubscriptions : gmap string StatValue)
    : gmap string StatValue :=
  if decide (siteId = "__proto__") then clientsBySubscriptions
  else <[siteId := plusOne siteId (clientsBySubscriptions !! siteId)]>
         clientsBySubscriptions.

(** [getStats()]: [totalClients] and the own properties of
    [clientsBySubscriptions]. *)
Definition getStats (s : Sockets) : nat * gmap string StatValue :=
  let clients := filter (λ ws, inClients ws = true) s in
  (length clients,
   foldl (λ acc ws, set_fold countSubscription acc (subscribedSites ws))
         ∅ clients).

(** The effect of one subscription to [siteId] on the property [siteId]. *)
Definition counted (siteId : string) (held : option StatValue)
    : option StatValue :=
  if decide (siteId = "__proto__") then held
  else Some (plusOne siteId held).

End PlainObject.

End WSStats.

(** ** [serveSite] around its [await] *)

Module Overlap.
Import Manager.

(** [serveSite] up to the point where it waits for the command (lines
    137-150): the site is looked up, the port is chosen and the command is
    launched.  It hands over the site object it found and the port. *)
Definition serveSiteStart (siteId : string) (port : option Z)
    : M (JekyllSite * Z) :=
  site ← getOrThrow siteId;
  servePort ← (if numTruthy port then mret (default 0%Z port)
               else findAvailablePort 4000);
  modify (λ m, mkState (sites m) (projectsDir m) (watchers m)
                       (onceSiteStopped m) (emitted m)
                       (executed m ++ [DockerServe (name site) servePort]));;
  mret (site, servePort).

(** [serveSite] from the moment the command settles (lines 152-167).
    [found] is the object the start found: its present state is its entry of
    the registry (the entry is the object); were the entry deleted in the
    meantime, it is the state the object had when found. *)
Definition serveSiteSettle (siteId : string) (found : JekyllSite)
    (servePort : Z) (r : ExecResult) : M Z :=
  m ← get;
  let site := default found (sites m !! siteId) in
  match r with
  | ExecOk _ _ =>
      let site := set_port (Some servePort) (set_status Serving site) in
      sitesSet siteId site;;
      emit (siteStatusChanged site);;
      emit (siteServing site);;
      setupFileWatcher site;;
      mret servePort
  | ExecRejected e =>
      let site := set_status Failed site in
      sitesSet siteId site;;
      emit (siteStatusChanged site);;
      throw (ExecFailure e)
  end.

End Overlap.

(** ** Notions used by the further statements *)

Module MoreProps.
Import Manager.

(** Every record is stored under its own id. *)
Definition keyedById (σ : gmap string JekyllSite) : Prop :=
  ∀ i s, σ !! i = Some s → siteId s = i.

(** No record is in a transient status. *)
Definition settled (σ : gmap string JekyllSite) : Prop :=
  ∀ i s, σ !! i = Some s →
    status s = Ready ∨ status s = Serving ∨ status s = Failed.

(** Every serving record has a port. *)
Definition servingHavePorts (σ : gmap string JekyllSite) : Prop :=
  ∀ i s, σ !! i = Some s → status s = Serving → is_Some (port s).

(** Watcher [w] is [x] and no clean-up listener is left that would close
    it. *)
Definition orphaned (w : nat) (x : Watcher) (m : State) : Prop :=
  watchers m !! w = Some x ∧
  Forall (λ l, l_watcher l ≠ w) (onceSiteStopped m).

(** Watcher [w] exists and has been closed. *)
Definition closed (w : nat) (m : State) : Prop :=
  ∃ x, watchers m !! w = Some x ∧ w_closed x = true.

(** What the environment can make a manager do: a caller-facing operation,
    or a file change reported by a watcher. *)
Inductive Happening :=
| Operation (o : Ops.Op)
| FileChange (w : nat) (filePath : string).

Definition happen (h : Happening) (m : State) : State :=
  match h with
  | Operation o => Ops.perform o m
  | FileChange w filePath => Props.after (watcherChange w filePath) m
  end.

Definition happenAll (hs : list Happening) (m : State) : State :=
  foldl (λ m h, happen h m) m hs.

End MoreProps.

(** ** Notions used by the further statements about the live-update layer *)

Module MoreWSProps.
Import WS.

(** Every message written to the socket carries a send time. *)
Definition allStamped (ws : ExtendedWebSocket) : Prop :=
  Forall (λ m, is_Some (timestamp m)) (sent ws).

(** A subscribe or unsubscribe frame that names no site. *)
Definition namesNoSite (parsed : option ClientMessage) : Prop :=
  ∃ d, parsed = Some d ∧
       (c_type d = "subscribe" ∨ c_type d = "unsubscribe") ∧
       (c_siteId d = None ∨ c_siteId d = Some "").

(** The number of elements of [this.clients] subscribed to [siteId]. *)
Definition subscribers (siteId : string) (s : Sockets) : nat :=
  length (filter (λ ws, siteId ∈ subscribedSites ws)
                 (filter (λ ws, inClients ws = true) s)).

End MoreWSProps.

(** * Properties *)

(** ** Reasoning about the monad *)

Ltac msimpl :=
  cbv [mbind mret Manager.M_bind Manager.M_ret Manager.bind Manager.ret
       Manager.throw Manager.try_catch Manager.get Manager.modify].

Module ManagerFacts.
Import Manager Props.

(** Every record of the registry is listed by [getAllSites]. *)
Lemma elem_of_getAllSites (m : State) (i : string) (s : JekyllSite) :
  sites m !! i = Some s → s ∈ getAllSites m.
Proof.
  intros Hs. unfold getAllSites. apply list_elem_of_fmap.
  exists (i, s). split; [reflexivity|]. by apply elem_of_map_to_list.
Qed.

(** *** The port scan *)

(** If some port of the scanned window is free, the scan stops on the lowest
    free port. *)
Lemma scanPorts_lowest (used : list Z) (fuel : nat) :
  ∀ start : Z,
    (∃ q, (start ≤ q < start + Z.of_nat fuel)%Z ∧ q ∉ used) →
    (start ≤ scanPorts used fuel start)%Z ∧
    (scanPorts used fuel start ∉ used) ∧
    ∀ q, (start ≤ q < scanPorts used fuel start)%Z → q ∈ used.
Proof.
  induction fuel as [|fuel IH]; intros start [q [Hq Hfree]].
  - lia.
  - simpl. destruct (decide (start ∈ used)) as [Hin|Hout].
    + assert (q ≠ start) by (intros ->; contradiction).
      destruct (IH (start + 1)%Z) as (Hle & Hnot & Hmin).
      { exists q. split; [lia | assumption]. }
      split; [lia|]. split; [assumption|].
      intros q' Hq'. destruct (decide (q' = start)) as [->|Hne]; [assumption|].
      apply Hmin. lia.
    + split; [lia|]. split; [assumption|]. intros q' Hq'. lia.
Qed.

(** A window one longer than the list always contains a free port. *)
Lemma free_port_in_window (used : list Z) (start : Z) :
  ∃ q, (start ≤ q < start + Z.of_nat (S (length used)))%Z ∧ q ∉ used.
Proof.
  set (window := (λ i : nat, (start + Z.of_nat i)%Z) <$> seq 0 (S (length used))).
  destruct (decide (Exists (λ q, q ∉ used) window)) as [Hex|Hall].
  - apply Exists_exists in Hex as (q & Hq & Hfree).
    exists q. split; [|assumption].
    apply list_elem_of_fmap in Hq as (i & -> & Hi).
    apply elem_of_seq in Hi. lia.
  - exfalso. apply not_Exists_Forall in Hall; [|apply _].
    assert (Hsub : window ⊆+ used).
    { apply NoDup_submseteq.
      - apply NoDup_fmap_2; [|apply NoDup_seq]. intros i j Hij. lia.
      - intros q Hq. rewrite Forall_forall in Hall.
        specialize (Hall q Hq). simpl in Hall.
        destruct (decide (q ∈ used)); [assumption | contradiction]. }
    apply submseteq_length in Hsub.
    unfold window in Hsub. rewrite length_fmap, length_seq in Hsub. lia.
Qed.

(** The ports [findAvailablePort] treats as used are the ports recorded in
    the registry. *)
Lemma elem_of_usedPorts (m : State) (p : Z) :
  p ∈ usedPorts m ↔ recorded m p.
Proof.
  unfold usedPorts, recorded. rewrite list_elem_of_omap. split.
  - intros (s & Hs & Hp). apply list_elem_of_fmap in Hs as ([i s'] & -> & His).
    apply elem_of_map_to_list in His. eauto.
  - intros (i & s & His & Hp). exists s. split; [|assumption].
    apply list_elem_of_fmap. exists (i, s). split; [reflexivity|].
    by apply elem_of_map_to_list.
Qed.

(** [findAvailablePort] returns, leaves the state alone, and its result is
    the lowest port from [start] on that no record stores. *)
Lemma findAvailablePort_free (m : State) (start : Z) :
  ∃ p, findAvailablePort start m = (Returned p, m) ∧
       (start ≤ p)%Z ∧ ¬ recorded m p ∧
       ∀ q, (start ≤ q < p)%Z → recorded m q.
Proof.
  eexists. split; [reflexivity|].
  destruct (scanPorts_lowest (usedPorts m) (S (length (usedPorts m))) start
              (free_port_in_window _ _)) as (Hle & Hnot & Hmin).
  split; [assumption|]. split.
  - by rewrite <- elem_of_usedPorts.
  - intros q Hq. apply elem_of_usedPorts. by apply Hmin.
Qed.

End ManagerFacts.

(** ** Build, Serve, Stop and Delete *)

Module LifecycleProps.
Import Manager Props ManagerFacts.

(** C6.  For a registered site, when the build command is rejected (non-zero
    exit, a thrown error, or the 120 s timeout), [buildSite] does not throw:
    it returns a [BuildResult] with [success = false] that carries the
    captured output and the error text, the site's status is ['error'] (not
    ['building']), and the two status changes have been emitted. *)
Theorem buildSite_failure_is_data (m : State) (id : string) (site : JekyllSite)
    (e : ExecError) (startTime builtAt endTime : Z) :
  sites m !! id = Some site →
  ∃ m',
    buildSite id (ExecRejected e) startTime builtAt endTime m =
      (Returned (mkBuildResult false (strOr (e_stdout e) "")
                   (Some (strOr (e_stderr e) (e_message e)))
                   (endTime - startTime)), m') ∧
    sites m' !! id = Some (set_status Failed site) ∧
    (∀ j, j ≠ id → sites m' !! j = sites m !! j) ∧
    emitted m' = emitted m ++ [siteStatusChanged (set_status Building site);
                               siteStatusChanged (set_status Failed site)].
Proof.
  intros Hsite.
  unfold buildSite, getOrThrow, sitesSet, emit, execAsync. msimpl.
  rewrite Hsite. simpl. eexists. split; [reflexivity|]. simpl.
  split; [by rewrite lookup_insert_eq|]. split.
  - intros j Hj. by rewrite !lookup_insert_ne.
  - by rewrite <- app_assoc.
Qed.

Lemma buildSite_failure_is_data_witness :
  ∃ m',
    buildSite "id-a" (ExecRejected (mkExecError None (Some "boom") "exit 1"))
      10 11 12 Scenario.fleet =
      (Returned (mkBuildResult false "" (Some "boom") 2), m') ∧
    status <$> sites m' !! "id-a" = Some Failed.
Proof.
  destruct (buildSite_failure_is_data Scenario.fleet "id-a"
              (mkSite "id-a" "alpha" "/app/projects/alpha" Ready None 1 None)
              (mkExecError None (Some "boom") "exit 1") 10 11 12)
    as (m' & Hrun & Hst & _); [vm_compute; reflexivity|].
  exists m'. split; [exact Hrun|]. rewrite Hst. reflexivity.
Defined.

(** C10.  When the stop command fails, [stopSite] swallows the error: it
    returns normally, emits nothing, and the registry (so the site's
    ['serving'] status and its port) is as before.  [deleteSite] on such a
    serving site therefore goes on: with the directory removed it returns
    normally, the record is gone and ['siteDeleted'] is emitted for it. *)
Theorem stop_failure_is_swallowed (m : State) (id : string)
    (site : JekyllSite) (e : ExecError) :
  sites m !! id = Some site →
  status site = Serving →
  (∃ m', stopSite id (ExecRejected e) m = (Returned tt, m') ∧
         sites m' = sites m ∧ emitted m' = emitted m ∧
         watchers m' = watchers m) ∧
  (∃ m', deleteSite id (ExecRejected e) None m = (Returned tt, m') ∧
         sites m' = delete id (sites m) ∧
         emitted m' = emitted m ++ [siteDeleted site]).
Proof.
  intros Hsite Hserving. split.
  - unfold stopSite, getOrThrow, execAsync. msimpl. rewrite Hsite. simpl.
    eexists. split; [reflexivity|]. done.
  - unfold deleteSite, stopSite, getOrThrow, execAsync, emit. msimpl.
    rewrite Hsite. simpl. rewrite decide_True by assumption. simpl.
    rewrite Hsite. simpl. eexists. split; [reflexivity|]. simpl.
    by rewrite Hsite.
Qed.

Lemma stop_failure_is_swallowed_witness :
  ∃ m', deleteSite "id-a" (ExecRejected (mkExecError None None "no daemon"))
          None Scenario.alphaServing = (Returned tt, m') ∧
        sites m' !! "id-a" = None.
Proof.
  destruct (stop_failure_is_swallowed Scenario.alphaServing "id-a"
              (mkSite "id-a" "alpha" "/app/projects/alpha" Serving
                      (Some 4000%Z) 1 None)
              (mkExecError None None "no daemon"))
    as [_ (m' & Hrun & Hsites & _)];
    [vm_compute; reflexivity | reflexivity |].
  exists m'. split; [exact Hrun|]. rewrite Hsites. apply lookup_delete_eq.
Defined.

(** [stopSite] itself does not look at the status: called on the ['ready']
    site "alpha" it runs the stop command and emits ['siteStopped'].  The
    status test of [Stop] is the route handler's. *)
Example stopSite_has_no_status_test :
  let alpha := mkSite "id-a" "alpha" "/app/projects/alpha" Ready None 1 None in
  stopSite "id-a" Scenario.ok Scenario.fleet =
    (Returned tt,
     mkState (sites Scenario.fleet) (projectsDir Scenario.fleet) [] []
             (emitted Scenario.fleet ++
                [siteStatusChanged alpha; siteStopped alpha])
             [DockerDown]).
Proof. vm_compute. reflexivity. Qed.

(** C2.  [Stop] (the [DELETE] request of the serve route) on a registered
    site whose status is not ['serving'] answers 400 "not currently being
    served" and leaves the whole manager state, hence the site's record,
    untouched; no command is run. *)
Theorem stop_on_non_serving (m : State) (id : string) (site : JekyllSite)
    (bp : ServeRoute.BodyPort) (r : ExecResult) :
  id ≠ "" →
  sites m !! id = Some site →
  status site ≠ Serving →
  ServeRoute.handler true DELETE (Some id) bp r m =
    (Some ServeRoute.NotServing, m).
Proof.
  intros Hid Hsite Hst. unfold ServeRoute.handler, getSite. simpl.
  rewrite decide_False by assumption. rewrite Hsite.
  by rewrite decide_True by assumption.
Qed.

Lemma stop_on_non_serving_witness :
  ServeRoute.handler true DELETE (Some "id-a") ServeRoute.PortAbsent
    Scenario.ok Scenario.fleet =
    (Some ServeRoute.NotServing, Scenario.fleet).
Proof.
  apply (stop_on_non_serving Scenario.fleet "id-a"
           (mkSite "id-a" "alpha" "/app/projects/alpha" Ready None 1 None)).
  - discriminate.
  - vm_compute. reflexivity.
  - discriminate.
Defined.

(** C3, as the code has it.  For a site in status ['serving'] on port [p], a
    further [Serve] request leaves the manager state untouched (no command
    is run, status and port stay) and fails: with 409 "already being served"
    carrying [p] when the request names no port or one the range check
    accepts, and with 400 "port must be between 3000 and 9999" when it names
    a port the range check rejects, since that check comes first. *)
Theorem serve_on_serving (m : State) (id : string) (site : JekyllSite) (p : Z)
    (bp : ServeRoute.BodyPort) (r : ExecResult) :
  id ≠ "" →
  sites m !! id = Some site →
  status site = Serving →
  port site = Some p →
  ServeRoute.handler true POST (Some id) bp r m =
    (Some (if ServeRoute.portTruthy bp && ServeRoute.portInvalid bp
           then ServeRoute.PortOutOfRange
           else ServeRoute.AlreadyServing (Some p)), m).
Proof.
  intros Hid Hsite Hst Hport. unfold ServeRoute.handler, getSite. simpl.
  rewrite decide_False by assumption. rewrite Hsite.
  destruct (ServeRoute.portTruthy bp && ServeRoute.portInvalid bp);
    [reflexivity|].
  rewrite decide_True by assumption. by rewrite Hport.
Qed.

Lemma serve_on_serving_witness :
  ServeRoute.handler true POST (Some "id-a") ServeRoute.PortAbsent
    Scenario.ok Scenario.alphaServing =
    (Some (ServeRoute.AlreadyServing (Some 4000%Z)), Scenario.alphaServing).
Proof.
  apply (serve_on_serving Scenario.alphaServing "id-a"
           (mkSite "id-a" "alpha" "/app/projects/alpha" Serving
                   (Some 4000%Z) 1 None) 4000 ServeRoute.PortAbsent).
  - discriminate.
  - vm_compute. reflexivity.
  - reflexivity.
  - reflexivity.
Defined.

(** C3, as stated, fails: "alpha" is serving on port 4000 and a second
    [Serve] request asks for port 80.  The answer is the 400 of the range
    check, not [AlreadyServing] with port 4000. *)
Lemma second_serve_with_bad_port :
  sites Scenario.alphaServing !! "id-a" =
    Some (mkSite "id-a" "alpha" "/app/projects/alpha" Serving
                 (Some 4000%Z) 1 None) ∧
  (ServeRoute.handler true POST (Some "id-a") (ServeRoute.PortNumber 80)
     Scenario.ok Scenario.alphaServing).1 = Some ServeRoute.PortOutOfRange ∧
  (ServeRoute.handler true POST (Some "id-a") (ServeRoute.PortNumber 80)
     Scenario.ok Scenario.alphaServing).1 ≠
    Some (ServeRoute.AlreadyServing (Some 4000%Z)).
Proof.
  split; [vm_compute; reflexivity|].
  split; [vm_compute; reflexivity|].
  vm_compute. discriminate.
Qed.

End LifecycleProps.

(** ** Port allocation *)

Module PortProps.
Import Manager Props Ops ManagerFacts.

(** C7, as the code has it.  A [Serve] with no requested port on a registered
    site whose preview starts returns the lowest port from 4000 on that no
    record of the registry stores, serving or not, and makes the site
    ['serving'] on it; in a registry where no record stores a port that is
    4000. *)
Theorem serve_allocates_lowest_unrecorded (m : State) (id : string)
    (site : JekyllSite) (requested : option Z) (out err : string) :
  sites m !! id = Some site →
  numTruthy requested = false →
  ∃ p m',
    serveSite id requested (ExecOk out err) m = (Returned p, m') ∧
    (4000 ≤ p)%Z ∧
    ¬ recorded m p ∧
    (∀ q, (4000 ≤ q < p)%Z → recorded m q) ∧
    ((∀ i s, sites m !! i = Some s → port s = None) → p = 4000%Z) ∧
    sites m' !! id = Some (set_port (Some p) (set_status Serving site)).
Proof.
  intros Hsite Hfalsy.
  destruct (findAvailablePort_free m 4000) as (p & Hfind & Hle & Hfree & Hmin).
  exists p.
  unfold serveSite, getOrThrow, sitesSet, emit, execAsync, setupFileWatcher.
  msimpl. rewrite Hsite, Hfalsy. simpl.
  unfold findAvailablePort in Hfind. revert Hfind. msimpl.
  intros [= Hp]. rewrite Hp. simpl.
  eexists. split; [reflexivity|]. simpl.
  split; [assumption|]. split; [assumption|]. split; [assumption|].
  split; [|by rewrite lookup_insert_eq].
  intros Hnone. destruct (decide (p = 4000%Z)) as [|Hne]; [assumption|].
  destruct (Hmin 4000%Z) as (i & s & His & Hport); [lia|].
  rewrite (Hnone i s His) in Hport. discriminate.
Qed.

Lemma serve_allocates_lowest_unrecorded_witness :
  ∃ m', serveSite "id-a" None (ExecOk "" "") Scenario.fleet =
          (Returned 4000%Z, m').
Proof.
  destruct (serve_allocates_lowest_unrecorded Scenario.fleet "id-a"
              (mkSite "id-a" "alpha" "/app/projects/alpha" Ready None 1 None)
              None "" "")
    as (p & m' & Hrun & _ & _ & _ & Hbase & _);
    [vm_compute; reflexivity | reflexivity |].
  exists m'. rewrite Hrun. f_equal. f_equal. apply Hbase.
  assert (Hnone : Forall (λ s, port s = None) (getAllSites Scenario.fleet))
    by (vm_compute; repeat constructor).
  intros i s His. apply elem_of_getAllSites in His.
  rewrite Forall_forall in Hnone. by apply Hnone.
Defined.

(** C7, as stated, fails.  "alpha" was served on port 4000 and then rebuilt,
    which made it ['ready'] but left the port in its record.  No site is
    serving, yet a [Serve] of "beta" with no requested port is given 4001,
    which is not the lowest port free among serving sites. *)
Lemma allocation_counts_stale_port :
  Forall (λ s, status s ≠ Serving) (getAllSites Scenario.alphaRebuilt) ∧
  (serveSite "id-b" None Scenario.ok Scenario.alphaRebuilt).1
    = Returned 4001%Z ∧
  ¬ lowestFreeAmongServing Scenario.alphaRebuilt "id-b" 4001.
Proof.
  assert (Hnone : Forall (λ s, status s ≠ Serving)
                         (getAllSites Scenario.alphaRebuilt)).
  { vm_compute. repeat constructor; discriminate. }
  split; [exact Hnone|]. split; [vm_compute; reflexivity|].
  intros (_ & _ & Hmin).
  destruct (Hmin 4000%Z) as (i & s & _ & His & Hst & _); [lia|].
  apply elem_of_getAllSites in His.
  rewrite Forall_forall in Hnone. by apply (Hnone s His).
Qed.

(** *** Operations that let the manager choose the port *)

Lemma portsDistinct_insert (σ : gmap string JekyllSite) (id : string)
    (s' : JekyllSite) :
  portsDistinct σ →
  (port s' = None ∨ (∃ s, σ !! id = Some s ∧ port s' = port s) ∨
   (∃ p, port s' = Some p ∧ ∀ j t, σ !! j = Some t → port t ≠ Some p)) →
  portsDistinct (<[id:=s']> σ).
Proof.
  intros Hdist Hnew i j s t p Hij Hs Ht Hps Hpt.
  destruct (decide (i = id)) as [->|Hi], (decide (j = id)) as [->|Hj];
    [done| | |].
  - rewrite lookup_insert_eq in Hs. rewrite lookup_insert_ne in Ht by done.
    injection Hs as <-.
    destruct Hnew as [Hnone|[(s0 & Hs0 & Hsame)|(q & Hq & Hfree)]].
    + congruence.
    + rewrite Hsame in Hps. by eapply (Hdist id j s0 t).
    + assert (q = p) by congruence. subst q. by eapply Hfree.
  - rewrite lookup_insert_eq in Ht. rewrite lookup_insert_ne in Hs by done.
    injection Ht as <-.
    destruct Hnew as [Hnone|[(s0 & Hs0 & Hsame)|(q & Hq & Hfree)]].
    + congruence.
    + rewrite Hsame in Hpt. by eapply (Hdist i id s s0).
    + assert (q = p) by congruence. subst q. by eapply Hfree.
  - rewrite lookup_insert_ne in Hs, Ht by done. by eapply (Hdist i j).
Qed.

Lemma portsDistinct_delete (σ : gmap string JekyllSite) (id : string) :
  portsDistinct σ → portsDistinct (delete id σ).
Proof.
  intros Hdist i j s t p Hij Hs Ht.
  apply lookup_delete_Some in Hs as [_ Hs].
  apply lookup_delete_Some in Ht as [_ Ht].
  by eapply Hdist.
Qed.

Lemma perform_keeps_ports_distinct (o : Op) (m : State) :
  allocating o → portsDistinct (sites m) → portsDistinct (sites (perform o m)).
Proof.
  intros Halloc Hdist.
  destruct o as [n structure uuid now materialize|id r t0 tb t1|id requested r
                |id r|id stop remove]; simpl in *; unfold after.
  - unfold createSite, sitesSet, emit. msimpl.
    destruct materialize; simpl;
      rewrite insert_insert_eq; apply portsDistinct_insert; auto.
  - unfold buildSite, getOrThrow, sitesSet, emit, execAsync. msimpl.
    destruct (sites m !! id) as [site|] eqn:Hsite; simpl; [|assumption].
    destruct r; simpl; rewrite !insert_insert_eq;
      apply portsDistinct_insert; eauto.
  - unfold serveSite, getOrThrow, sitesSet, emit, execAsync, setupFileWatcher,
      findAvailablePort.
    msimpl.
    destruct (sites m !! id) as [site|] eqn:Hsite; simpl; [|assumption].
    rewrite Halloc. simpl.
    destruct (findAvailablePort_free m 4000) as (p & Hfind & _ & Hfree & _).
    unfold findAvailablePort in Hfind. revert Hfind. msimpl.
    intros [= Hp]. rewrite Hp.
    destruct r; simpl; apply portsDistinct_insert; eauto.
    right; right. exists p. split; [reflexivity|].
    intros j t Ht Hpt. apply Hfree. by exists j, t.
  - unfold stopSite, getOrThrow, sitesSet, emit, execAsync. msimpl.
    destruct (sites m !! id) as [site|] eqn:Hsite; simpl; [|assumption].
    destruct r; simpl; [|assumption].
    apply portsDistinct_insert; auto.
  - unfold deleteSite, stopSite, getOrThrow, sitesSet, emit, execAsync. msimpl.
    destruct (sites m !! id) as [site|] eqn:Hsite; simpl; [|assumption].
    destruct (decide (status site = Serving)); simpl.
    + rewrite Hsite. simpl.
      destruct stop; simpl; destruct remove; simpl;
        try apply portsDistinct_delete; try apply portsDistinct_insert;
        auto.
    + destruct remove; simpl; [assumption|]. by apply portsDistinct_delete.
Qed.

Lemma performAll_keeps_ports_distinct (ops : list Op) :
  ∀ m, Forall allocating ops → portsDistinct (sites m) →
    portsDistinct (sites (performAll ops m)).
Proof.
  induction ops as [|o ops IH]; intros m Hops Hm; [assumption|].
  apply Forall_cons in Hops as [Ho Hops].
  simpl. apply IH; [assumption|]. by apply perform_keeps_ports_distinct.
Qed.

(** Whatever sequence of Create, Build, Serve, Stop and Delete is run on a
    fresh manager one call after the other (none starting before the
    previous one has settled), and whatever the outside world answers, if no
    Serve names a port then no two serving sites hold the same port. *)
Lemma allocated_ports_never_collide (ops : list Op) (cwd : string) :
  Forall allocating ops →
  servingPortsDistinct (performAll ops (new cwd)).
Proof.
  intros Hops.
  assert (Hdist : portsDistinct (sites (performAll ops (new cwd)))).
  { apply performAll_keeps_ports_distinct; [assumption|].
    intros i j s t p _ Hs. simpl in Hs. by rewrite lookup_empty in Hs. }
  intros i j s t p Hij Hs Ht _ _. by apply (Hdist i j).
Qed.

(** C1 fails on the code.  Sites "alpha" and "beta" are each asked to serve
    on port 5000, a port the range check accepts, and each preview starts.
    Both records are then ['serving'] with port 5000: the requested-port
    path stores the port without looking at the registry. *)
Theorem two_sites_serving_on_one_port :
  sites Scenario.bothOn5000 !! "id-a" =
    Some (mkSite "id-a" "alpha" "/app/projects/alpha" Serving
                 (Some 5000%Z) 1 None) ∧
  sites Scenario.bothOn5000 !! "id-b" =
    Some (mkSite "id-b" "beta" "/app/projects/beta" Serving
                 (Some 5000%Z) 2 None) ∧
  ¬ servingPortsDistinct Scenario.bothOn5000.
Proof.
  assert (Ha : sites Scenario.bothOn5000 !! "id-a" =
    Some (mkSite "id-a" "alpha" "/app/projects/alpha" Serving
                 (Some 5000%Z) 1 None)) by (vm_compute; reflexivity).
  assert (Hb : sites Scenario.bothOn5000 !! "id-b" =
    Some (mkSite "id-b" "beta" "/app/projects/beta" Serving
                 (Some 5000%Z) 2 None)) by (vm_compute; reflexivity).
  split; [exact Ha|]. split; [exact Hb|].
  intros Hdist.
  by apply (Hdist "id-a" "id-b" _ _ 5000%Z ltac:(discriminate) Ha Hb).
Qed.

End PortProps.

(** ** The file watcher *)

Module WatcherProps.
Import Manager Props.

(** Emitting ['siteStopped'] consumes every listener registered with [once],
    whichever site has stopped. *)
Lemma siteStopped_consumes_listeners (m : State) (s : JekyllSite) :
  onceSiteStopped (after (emit (siteStopped s)) m) = [].
Proof. reflexivity. Qed.

(** A watcher whose site is the only one serving is closed by that site's
    stop. *)
Example watcher_closed_when_alone :
  watchers (after (stopSite "id-a" Scenario.ok) Scenario.alphaServing) !! 0 =
    Some (mkWatcher "id-a" "/app/projects/alpha" true).
Proof. vm_compute. reflexivity. Qed.

(** C4 fails on the code.  "alpha" and "beta" are serving, each with its
    watcher; "beta" is stopped, then "alpha".  The stop of "beta" consumed
    the [once] listener of "alpha"'s watcher, so after "alpha" has stopped
    (status ['ready'], port cleared) its watcher is still open, and a later
    change under its directory is still emitted as ['fileChanged']. *)
Theorem watcher_survives_own_stop :
  sites Scenario.bothStopped !! "id-a" =
    Some (mkSite "id-a" "alpha" "/app/projects/alpha" Ready None 1 None) ∧
  watchers Scenario.bothStopped !! 0 =
    Some (mkWatcher "id-a" "/app/projects/alpha" false) ∧
  emitted (after (watcherChange 0 "index.md") Scenario.bothStopped) =
    emitted Scenario.bothStopped ++ [fileChanged "id-a" "index.md"].
Proof.
  split; [vm_compute; reflexivity|].
  split; vm_compute; reflexivity.
Qed.

End WatcherProps.

(** ** Create *)

Module CreateProps.
Import Manager Props ManagerFacts.

(** A name supplied by the caller that an existing site already has is
    refused with 409 before anything is generated or stored. *)
Lemma create_refuses_supplied_duplicate
    (sanitizeInput : string → string)
    (validateSiteName : string → option string)
    (m : State) (i : string) (s : JekyllSite) (supplied prompt : string)
    generated uuid now materialize build startTime builtAt endTime :
  supplied ≠ "" → prompt ≠ "" →
  sanitizeInput supplied = name s →
  name s ≠ "" →
  validateSiteName (name s) = None →
  sites m !! i = Some s →
  CreateRoute.handler sanitizeInput validateSiteName true POST
    (Some supplied) (Some prompt) generated uuid now materialize build
    startTime builtAt endTime m = (Some CreateRoute.NameExists, m).
Proof.
  intros Hsup Hprompt Hsan Hname Hvalid Hs.
  unfold CreateRoute.handler. simpl.
  rewrite !bool_decide_eq_true_2 by assumption. simpl.
  rewrite Hsan. simpl. rewrite bool_decide_eq_true_2 by assumption.
  simpl. rewrite Hvalid.
  rewrite bool_decide_eq_true_2; [reflexivity|].
  apply Exists_exists. exists s. split; [|reflexivity].
  by eapply elem_of_getAllSites.
Qed.

(** [createSite] names the site after the structure document whenever that
    document has a name, whatever name the caller passed. *)
Lemma createSite_prefers_structure_name (m : State) (passed : option string)
    (structure : Structure) (n uuid : string) (now : Z) :
  s_name structure = Some n → n ≠ "" →
  ∃ site m',
    createSite passed structure uuid now None m = (Returned site, m') ∧
    name site = n ∧ sites m' !! uuid = Some site.
Proof.
  intros Hn Hne. unfold createSite, sitesSet, emit. msimpl. simpl.
  eexists _, _. split; [reflexivity|]. simpl. rewrite Hn. simpl.
  rewrite decide_False by assumption.
  split; [reflexivity|]. by rewrite lookup_insert_eq.
Qed.

(** When the files are written, [createSite] has inserted the record with
    status ['creating'], announced it, and returns the same record, by then
    ['ready']. *)
Lemma createSite_creating_then_ready (m : State) (passed : option string)
    (structure : Structure) (uuid : string) (now : Z) :
  ∃ site m',
    createSite passed structure uuid now None m = (Returned site, m') ∧
    siteId site = uuid ∧ status site = Ready ∧
    sites m' !! uuid = Some site ∧
    emitted m' = emitted m ++ [siteStatusChanged (set_status Creating site);
                               siteStatusChanged site; siteCreated site].
Proof.
  unfold createSite, sitesSet, emit. msimpl. simpl.
  eexists _, _. split; [reflexivity|]. simpl.
  split; [reflexivity|]. split; [reflexivity|].
  split; [by rewrite lookup_insert_eq|]. by rewrite <- !app_assoc.
Qed.

(** C5 fails on the code.  A site named "alpha" exists.  A [Create] request
    without a name, for which the generator produces a structure named
    "alpha", is answered 201: a second record named "alpha" is inserted and
    the registry then holds two sites of that name. *)
Theorem create_duplicates_generated_name
    (sanitizeInput : string → string)
    (validateSiteName : string → option string) :
  let run := Scenario.postCreateAlphaAgain sanitizeInput validateSiteName in
  name <$> sites Scenario.fleet !! "id-a" = Some "alpha" ∧
  run.1 = Some (CreateRoute.Created
                  (mkSite "id-c" "alpha" "/app/projects/alpha" Ready None 3
                          (Some 5%Z))
                  (mkBuildResult true "" None 2)) ∧
  name <$> sites run.2 !! "id-a" = Some "alpha" ∧
  name <$> sites run.2 !! "id-c" = Some "alpha" ∧
  ¬ namesDistinct run.2.
Proof.
  intros run.
  assert (Ha : sites run.2 !! "id-a" =
    Some (mkSite "id-a" "alpha" "/app/projects/alpha" Ready None 1 None))
    by (vm_compute; reflexivity).
  assert (Hc : sites run.2 !! "id-c" =
    Some (mkSite "id-c" "alpha" "/app/projects/alpha" Ready None 3
                 (Some 5%Z)))
    by (vm_compute; reflexivity).
  split; [vm_compute; reflexivity|].
  split; [vm_compute; reflexivity|].
  split; [by rewrite Ha|]. split; [by rewrite Hc|].
  intros Hdist.
  by apply (Hdist "id-a" "id-c" _ _ ltac:(discriminate) Ha Hc).
Qed.

End CreateProps.

(** ** Broadcast and heartbeat *)

Module WSFacts.
Import WS.
Import Manager (Event, fileChanged).

(** *** One action, seen from one socket *)

Lemma onManagerEvent_fmap (now : Z) (ev : Event) (s : Sockets) :
  onManagerEvent now ev s = stepSocket (Published now ev) 0 <$> s.
Proof. destruct ev; reflexivity. Qed.

Lemma step_lookup (a : Action) (s : Sockets) (c : nat)
    (ws : ExtendedWebSocket) :
  s !! c = Some ws → step a s !! c = Some (stepSocket a c ws).
Proof.
  intros Hc. destruct a as [now cid all|c' now all parsed|c'|c'|c'|now ev|];
    simpl.
  - unfold handleConnection. by rewrite lookup_app_l by by eapply lookup_lt_Some.
  - destruct (decide (c' = c)) as [->|Hne].
    + by rewrite list_lookup_alter_eq, Hc.
    + by rewrite list_lookup_alter_ne.
  - destruct (decide (c' = c)) as [->|Hne].
    + by rewrite list_lookup_alter_eq, Hc.
    + by rewrite list_lookup_alter_ne.
  - destruct (decide (c' = c)) as [->|Hne].
    + by rewrite list_lookup_alter_eq, Hc.
    + by rewrite list_lookup_alter_ne.
  - destruct (decide (c' = c)) as [->|Hne].
    + by rewrite list_lookup_alter_eq, Hc.
    + by rewrite list_lookup_alter_ne.
  - rewrite onManagerEvent_fmap, list_lookup_fmap, Hc. reflexivity.
  - unfold heartbeat, forEachClient. by rewrite list_lookup_fmap, Hc.
Qed.

Lemma run_lookup (acts : list Action) :
  ∀ (s : Sockets) (c : nat) (ws : ExtendedWebSocket),
    s !! c = Some ws → run acts s !! c = Some (runSocket acts c ws).
Proof.
  induction acts as [|a acts IH]; intros s c ws Hc; [assumption|].
  simpl. apply IH. by apply step_lookup.
Qed.

(** A socket that does not exist yet can only appear through a connection,
    and it is born alive. *)
Lemma step_lookup_fresh (a : Action) (s : Sockets) (c : nat)
    (ws : ExtendedWebSocket) :
  s !! c = None → step a s !! c = Some ws → isAlive ws = true.
Proof.
  intros Hnone Hsome. apply lookup_ge_None in Hnone.
  destruct a as [now cid all|c' now all parsed|c'|c'|c'|now ev|]; simpl in Hsome.
  - unfold handleConnection in Hsome.
    rewrite lookup_app_r in Hsome by assumption.
    destruct (c - length s) as [|k]; [|by destruct k].
    injection Hsome as <-. reflexivity.
  - apply lookup_lt_Some in Hsome. rewrite length_alter in Hsome. lia.
  - apply lookup_lt_Some in Hsome. rewrite length_alter in Hsome. lia.
  - apply lookup_lt_Some in Hsome. rewrite length_alter in Hsome. lia.
  - apply lookup_lt_Some in Hsome. rewrite length_alter in Hsome. lia.
  - rewrite onManagerEvent_fmap in Hsome.
    apply lookup_lt_Some in Hsome. rewrite length_fmap in Hsome. lia.
  - unfold heartbeat, forEachClient in Hsome.
    apply lookup_lt_Some in Hsome. rewrite length_fmap in Hsome. lia.
Qed.

(** *** What the callbacks leave alone *)

Lemma sendToClient_isAlive now message ws :
  isAlive (sendToClient now message ws) = isAlive ws.
Proof. unfold sendToClient. by destruct (decide (readyState ws = OPEN)). Qed.

Lemma sendToClient_inClients now message ws :
  inClients (sendToClient now message ws) = inClients ws.
Proof. unfold sendToClient. by destruct (decide (readyState ws = OPEN)). Qed.

Lemma handleMessage_isAlive now all parsed ws :
  isAlive (handleMessage now all parsed ws) = isAlive ws.
Proof.
  unfold handleMessage.
  repeat match goal with
         | |- context [decide ?P] => destruct (decide P)
         | |- context [match ?x with _ => _ end] => destruct x
         end; by rewrite ?sendToClient_isAlive.
Qed.

Lemma handleMessage_inClients now all parsed ws :
  inClients (handleMessage now all parsed ws) = inClients ws.
Proof.
  unfold handleMessage.
  repeat match goal with
         | |- context [decide ?P] => destruct (decide P)
         | |- context [match ?x with _ => _ end] => destruct x
         end; by rewrite ?sendToClient_inClients.
Qed.

(** A reply sent by [handleMessage] is not an event message. *)
Lemma sendToClient_reply_events now message ws :
  isEventMessage message = false →
  eventsOf (sendToClient now message ws) = eventsOf ws.
Proof.
  intros Hreply. unfold sendToClient, eventsOf.
  destruct (decide _); [|reflexivity]. simpl.
  rewrite filter_app. simpl.
  rewrite filter_cons_False, filter_nil, app_nil_r; [reflexivity|].
  unfold isEventMessage in *. simpl. by rewrite Hreply.
Qed.

Lemma handleMessage_events now all parsed ws :
  eventsOf (handleMessage now all parsed ws) = eventsOf ws.
Proof.
  unfold handleMessage.
  repeat match goal with
         | |- context [decide ?P] => destruct (decide P)
         | |- context [match ?x with _ => _ end] => destruct x
         end; try reflexivity;
    by rewrite sendToClient_reply_events by (vm_compute; reflexivity).
Qed.

(** Only a pong of the socket itself marks it alive again. *)
Lemma stepSocket_stays_unconfirmed a c ws :
  a ≠ Pong c → isAlive ws = false → isAlive (stepSocket a c ws) = false.
Proof.
  intros Hpong Hdead.
  destruct a as [now cid all|c' now all parsed|c'|c'|c'|now ev|]; simpl.
  - assumption.
  - destruct (decide (c' = c)); [by rewrite handleMessage_isAlive|assumption].
  - destruct (decide (c' = c)) as [->|]; [congruence|assumption].
  - by destruct (decide (c' = c)).
  - by destruct (decide (c' = c)).
  - unfold onClient. destruct (inClients ws); [|assumption].
    match goal with |- context [if ?b then _ else _] => destruct b end;
      [by rewrite sendToClient_isAlive|assumption].
  - unfold onClient, terminate. destruct (inClients ws); [|assumption].
    rewrite Hdead. simpl. by destruct (decide (readyState ws = CLOSED)).
Qed.

(** Only the heartbeat marks a socket unconfirmed. *)
Lemma stepSocket_stays_alive a c ws :
  a ≠ HeartbeatTick → isAlive ws = true → isAlive (stepSocket a c ws) = true.
Proof.
  intros Htick Halive.
  destruct a as [now cid all|c' now all parsed|c'|c'|c'|now ev|]; simpl.
  - assumption.
  - destruct (decide (c' = c)); [by rewrite handleMessage_isAlive|assumption].
  - by destruct (decide (c' = c)).
  - by destruct (decide (c' = c)).
  - by destruct (decide (c' = c)).
  - unfold onClient. destruct (inClients ws); [|assumption].
    match goal with |- context [if ?b then _ else _] => destruct b end;
      [by rewrite sendToClient_isAlive|assumption].
  - congruence.
Qed.

(** A socket outside [this.clients] never re-enters the set and is sent no
    event any more. *)
Lemma stepSocket_stays_removed a c ws :
  inClients ws = false →
  inClients (stepSocket a c ws) = false ∧
  eventsOf (stepSocket a c ws) = eventsOf ws.
Proof.
  intros Hout.
  destruct a as [now cid all|c' now all parsed|c'|c'|c'|now ev|]; simpl.
  - done.
  - destruct (decide (c' = c)); [|done].
    by rewrite handleMessage_inClients, handleMessage_events.
  - by destruct (decide (c' = c)).
  - by destruct (decide (c' = c)).
  - by destruct (decide (c' = c)).
  - unfold onClient. by rewrite Hout.
  - unfold onClient. by rewrite Hout.
Qed.

Lemma runSocket_stays_removed acts c :
  ∀ ws, inClients ws = false →
    inClients (runSocket acts c ws) = false ∧
    eventsOf (runSocket acts c ws) = eventsOf ws.
Proof.
  induction acts as [|a acts IH]; intros ws Hout; [done|].
  simpl. destruct (stepSocket_stays_removed a c ws Hout) as [Hout' Hev].
  destruct (IH _ Hout') as [Hout'' Hev']. split; [assumption|congruence].
Qed.

Lemma runSocket_stays_unconfirmed acts c :
  ∀ ws, Forall (λ a, a ≠ Pong c ∧ a ≠ HeartbeatTick) acts →
    isAlive ws = false → isAlive (runSocket acts c ws) = false.
Proof.
  induction acts as [|a acts IH]; intros ws Hquiet Hdead; [done|].
  apply Forall_cons in Hquiet as [[Hpong _] Hquiet].
  simpl. apply IH; [assumption|]. by apply stepSocket_stays_unconfirmed.
Qed.

(** Between two ticks, a pong of [c] leaves [c] marked alive. *)
Lemma step_keeps_alive a c s :
  a ≠ HeartbeatTick → aliveIfPresent c s → aliveIfPresent c (step a s).
Proof.
  intros Htick Halive ws' Hc'.
  destruct (s !! c) as [ws|] eqn:Hc.
  - rewrite (step_lookup a s c ws Hc) in Hc'. injection Hc' as <-.
    apply stepSocket_stays_alive; [assumption|]. by apply Halive.
  - by eapply step_lookup_fresh.
Qed.

Lemma pong_marks_alive c s : aliveIfPresent c (step (Pong c) s).
Proof.
  intros ws' Hc'. simpl in Hc'. rewrite list_lookup_alter_eq in Hc'.
  destruct (s !! c); simplify_eq/=. reflexivity.
Qed.

Lemma run_keeps_alive acts c :
  ∀ s, aliveIfPresent c s ∨ Pong c ∈ acts →
    HeartbeatTick ∉ acts → aliveIfPresent c (run acts s).
Proof.
  induction acts as [|a acts IH]; intros s Hstart Hnotick.
  - destruct Hstart as [?|Hin]; [assumption|]. by apply elem_of_nil in Hin.
  - apply not_elem_of_cons in Hnotick as [Hne Hnotick].
    simpl. apply IH; [|assumption].
    destruct Hstart as [Halive|Hin].
    + left. apply step_keeps_alive; [congruence|assumption].
    + apply elem_of_cons in Hin as [<-|Hin]; [|by right].
      left. apply pong_marks_alive.
Qed.

(** After a tick every element of [this.clients] is unconfirmed. *)
Lemma heartbeat_marks_members s c :
  member c (heartbeat s) →
  ∃ ws, heartbeat s !! c = Some ws ∧ isAlive ws = false.
Proof.
  intros (ws' & Hc' & Hin). exists ws'. split; [assumption|].
  unfold heartbeat, forEachClient in Hc'.
  rewrite list_lookup_fmap in Hc'.
  destruct (s !! c) as [ws|]; simplify_eq/=.
  revert Hin. unfold onClient, ping, terminate.
  destruct (inClients ws) eqn:Hin0; [|congruence].
  destruct (isAlive ws) eqn:Hal; simpl; [|done].
  by destruct (decide _).
Qed.

End WSFacts.

Module BroadcastProps.
Import WS WSFacts.
Import Manager (Event, fileChanged).

Lemma send_changes_socket (message : WebSocketMessage)
    (ws : ExtendedWebSocket) :
  send message ws ≠ ws.
Proof.
  intros Heq. apply (f_equal (λ w, length (sent w))) in Heq.
  simpl in Heq. rewrite length_app in Heq. simpl in Heq. lia.
Qed.

(** C8.  Let [c] be a live connection: an element of [this.clients] whose
    socket is open.  When ['fileChanged'] is published for site [sid], [c] is
    sent the stamped message exactly when [sid] is in its subscription set at
    that moment, and is left untouched otherwise.  Each of the six lifecycle
    events is sent to [c] whatever its subscriptions, as the message whose
    [type] is the event's name, whose [data] is the site and whose [siteId]
    is the site's id, stamped with the send time. *)
Theorem event_delivery (s : Sockets) (c : nat) (ws : ExtendedWebSocket)
    (now : Z) :
  s !! c = Some ws →
  inClients ws = true →
  readyState ws = OPEN →
  (∀ sid filePath,
     let message :=
       mkMessage "fileChanged" (FileChangedData sid filePath) (Some sid)
                 (Some now) in
     let s' := onManagerEvent now (fileChanged sid filePath) s in
     (s' !! c = Some (send message ws) ↔ sid ∈ subscribedSites ws) ∧
     (sid ∉ subscribedSites ws → s' !! c = Some ws)) ∧
  (∀ site,
     let delivered (type : string) :=
       Some (send (mkMessage type (SiteData site)
                             (Some (Manager.siteId site)) (Some now)) ws) in
     onManagerEvent now (Manager.siteStatusChanged site) s !! c
       = delivered "siteStatusChanged" ∧
     onManagerEvent now (Manager.siteCreated site) s !! c
       = delivered "siteCreated" ∧
     onManagerEvent now (Manager.siteBuilt site) s !! c
       = delivered "siteBuilt" ∧
     onManagerEvent now (Manager.siteServing site) s !! c
       = delivered "siteServing" ∧
     onManagerEvent now (Manager.siteStopped site) s !! c
       = delivered "siteStopped" ∧
     onManagerEvent now (Manager.siteDeleted site) s !! c
       = delivered "siteDeleted").
Proof.
  intros Hc Hin Hopen. split.
  - intros sid filePath message s'.
    assert (Hs' : s' !! c =
      Some (if bool_decide (sid ∈ subscribedSites ws)
            then send message ws else ws)).
    { unfold s'. rewrite onManagerEvent_fmap, list_lookup_fmap, Hc. simpl.
      unfold onClient. rewrite Hin.
      destruct (bool_decide (sid ∈ subscribedSites ws)); [|reflexivity].
      unfold sendToClient. by rewrite decide_True by assumption. }
    rewrite Hs'. split.
    + split.
      * intros Heq. destruct (decide (sid ∈ subscribedSites ws)) as [|Hno];
          [assumption|].
        rewrite bool_decide_eq_false_2 in Heq by assumption.
        injection Heq as Heq. symmetry in Heq.
        by apply send_changes_socket in Heq.
      * intros Hsub. by rewrite bool_decide_eq_true_2.
    + intros Hno. by rewrite bool_decide_eq_false_2.
  - intros site delivered. unfold delivered.
    repeat split;
      rewrite onManagerEvent_fmap, list_lookup_fmap, Hc; simpl;
      unfold onClient; rewrite Hin;
      unfold sendToClient; by rewrite decide_True by assumption.
Qed.

Lemma event_delivery_witness :
  eventsReceived 0
    (WS.onManagerEvent 9 (fileChanged "id-a" "index.md") Scenario.subscribed)
  = [mkMessage "fileChanged" (FileChangedData "id-a" "index.md")
               (Some "id-a") (Some 9%Z)] ∧
  eventsReceived 0
    (WS.onManagerEvent 9
       (Manager.siteStopped
          (Manager.mkSite "id-b" "beta" "/app/projects/beta" Manager.Ready
                          None 2 None))
       Scenario.subscribed)
  = [mkMessage "siteStopped"
       (SiteData (Manager.mkSite "id-b" "beta" "/app/projects/beta"
                                 Manager.Ready None 2 None))
       (Some "id-b") (Some 9%Z)].
Proof.
  destruct (event_delivery Scenario.subscribed 0
              (mkSocket "client_1" true {["id-a"]} OPEN true
                 [mkMessage "connected" (ConnectedData "client_1" 1) None
                            (Some 1%Z);
                  mkMessage "sites" (SitesData []) None (Some 1%Z);
                  mkMessage "subscribed" (SiteIdData "id-a") None
                            (Some 2%Z)] 0) 9)
    as [Hfile Hlife]; [vm_compute; reflexivity | reflexivity | reflexivity |].
  split.
  - destruct (Hfile "id-a" "index.md") as [[_ Hsub] _].
    unfold eventsReceived. rewrite Hsub by set_solver.
    vm_compute. reflexivity.
  - destruct (Hlife (Manager.mkSite "id-b" "beta" "/app/projects/beta"
                                    Manager.Ready None 2 None))
      as (_ & _ & _ & _ & Hstopped & _).
    unfold eventsReceived. rewrite Hstopped.
    vm_compute. reflexivity.
Defined.

End BroadcastProps.

Module HeartbeatProps.
Import WS WSFacts.
Import Manager (fileChanged).

(** C9.  Take any state and any connection [c].

    (1) If [c] is still in [this.clients] after a tick (the tick has marked it
    unconfirmed) and no pong of [c] arrives before the next tick, then at
    that next tick [c] is no longer in [this.clients]; if it was still there
    just before that tick its socket has been terminated; and whatever
    happens afterwards, [c] stays out of the set and is sent no further
    event.

    (2) If a pong of [c] arrives between two ticks, the second tick does not
    remove [c]. *)
Theorem heartbeat_sweep (s : Sockets) (c : nat) :
  (∀ between,
     member c (heartbeat s) →
     Forall (λ a, a ≠ Pong c ∧ a ≠ HeartbeatTick) between →
     let before := run between (heartbeat s) in
     let swept := heartbeat before in
     ¬ member c swept ∧
     (member c before →
        ∃ ws, swept !! c = Some ws ∧ readyState ws ≠ OPEN) ∧
     ∀ later,
       ¬ member c (run later swept) ∧
       eventsReceived c (run later swept) = eventsReceived c swept) ∧
  (∀ between,
     Pong c ∈ between →
     HeartbeatTick ∉ between →
     member c (run between s) →
     member c (heartbeat (run between s))).
Proof.
  split.
  - intros between Hmember Hquiet before swept.
    destruct (heartbeat_marks_members s c Hmember) as (ws1 & Hc1 & Hdead1).
    pose proof (run_lookup between _ c ws1 Hc1) as Hbefore.
    fold before in Hbefore.
    pose proof (runSocket_stays_unconfirmed between c ws1 Hquiet Hdead1)
      as Hdead.
    set (ws2 := runSocket between c ws1) in *.
    assert (Hswept : swept !! c =
              Some (onClient (λ w, if negb (isAlive w)
                                   then set_inClients false (terminate w)
                                   else ping (set_isAlive false w)) ws2)).
    { unfold swept, heartbeat, forEachClient.
      by rewrite list_lookup_fmap, Hbefore. }
    set (ws3 := onClient _ ws2) in Hswept.
    assert (Hout : inClients ws3 = false).
    { unfold ws3, onClient. destruct (inClients ws2) eqn:Hin2; [|assumption].
      rewrite Hdead. reflexivity. }
    split; [|split].
    + intros (w & Hw & Hin). rewrite Hswept in Hw. congruence.
    + intros (w & Hw & Hin). rewrite Hbefore in Hw. injection Hw as <-.
      exists ws3. split; [assumption|].
      unfold ws3, onClient, terminate. rewrite Hin, Hdead. simpl.
      destruct (decide (readyState ws2 = CLOSED)) as [Hcl|]; simpl;
        [rewrite Hcl|]; discriminate.
    + intros later.
      pose proof (run_lookup later _ c ws3 Hswept) as Hlater.
      destruct (runSocket_stays_removed later c ws3 Hout) as [Hout' Hev].
      split.
      * intros (w & Hw & Hin). rewrite Hlater in Hw. congruence.
      * unfold eventsReceived. by rewrite Hlater, Hswept.
  - intros between Hpong Hnotick (ws & Hc & Hin).
    assert (Halive : isAlive ws = true).
    { by apply (run_keeps_alive between c s (or_intror Hpong) Hnotick). }
    exists (ping (set_isAlive false ws)). split.
    + unfold heartbeat, forEachClient. rewrite list_lookup_fmap, Hc. simpl.
      unfold onClient. by rewrite Hin, Halive.
    + unfold ping. by destruct (decide _).
Qed.

Lemma heartbeat_sweep_witness :
  ¬ member 0 (heartbeat (run [Published 5 (fileChanged "id-a" "index.md")]
                             (heartbeat Scenario.subscribed))) ∧
  member 0 (heartbeat (run [Pong 0] (heartbeat Scenario.subscribed))).
Proof.
  split.
  - destruct (heartbeat_sweep Scenario.subscribed 0) as [Hsweep _].
    apply (Hsweep [Published 5 (fileChanged "id-a" "index.md")]).
    + eexists. split; [vm_compute; reflexivity|reflexivity].
    + repeat constructor; discriminate.
  - destruct (heartbeat_sweep (heartbeat Scenario.subscribed) 0)
      as [_ Hkeep].
    apply (Hkeep [Pong 0]).
    + apply list_elem_of_here.
    + intros Hin. apply elem_of_cons in Hin as [Heq|Hin];
        [discriminate | by apply elem_of_nil in Hin].
    + eexists. split; [vm_compute; reflexivity|reflexivity].
Defined.

End HeartbeatProps.

(** * Further properties of the code *)

Module RegistryProps.
Import Manager Props Ops MoreProps ManagerFacts.

(** The three registry invariants survive the insertion of a record that
    satisfies them. *)
Lemma invariants_insert (σ : gmap string JekyllSite) (id : string)
    (s' : JekyllSite) :
  keyedById σ ∧ settled σ ∧ servingHavePorts σ →
  siteId s' = id →
  status s' = Ready ∨ status s' = Serving ∨ status s' = Failed →
  (status s' = Serving → is_Some (port s')) →
  keyedById (<[id:=s']> σ) ∧ settled (<[id:=s']> σ) ∧
  servingHavePorts (<[id:=s']> σ).
Proof.
  intros (Hk & Hs & Hp) Hid Hst Hport. repeat split.
  - intros i s Hi. destruct (decide (i = id)) as [->|Hne].
    + rewrite lookup_insert_eq in Hi. by injection Hi as <-.
    + rewrite lookup_insert_ne in Hi by done. by apply Hk.
  - intros i s Hi. destruct (decide (i = id)) as [->|Hne].
    + rewrite lookup_insert_eq in Hi. by injection Hi as <-.
    + rewrite lookup_insert_ne in Hi by done. by eapply Hs.
  - intros i s Hi. destruct (decide (i = id)) as [->|Hne].
    + rewrite lookup_insert_eq in Hi. by injection Hi as <-.
    + rewrite lookup_insert_ne in Hi by done. by eapply Hp.
Qed.

Lemma invariants_delete (σ : gmap string JekyllSite) (id : string) :
  keyedById σ ∧ settled σ ∧ servingHavePorts σ →
  keyedById (delete id σ) ∧ settled (delete id σ) ∧
  servingHavePorts (delete id σ).
Proof.
  intros (Hk & Hs & Hp). repeat split; intros i s Hi;
    apply lookup_delete_Some in Hi as [_ Hi]; eauto.
Qed.

Lemma perform_keeps_invariants (o : Op) (m : State) :
  keyedById (sites m) ∧ settled (sites m) ∧ servingHavePorts (sites m) →
  keyedById (sites (perform o m)) ∧ settled (sites (perform o m)) ∧
  servingHavePorts (sites (perform o m)).
Proof.
  intros Hinv. pose proof Hinv as (Hk & _ & _).
  destruct o as [n structure uuid now materialize|id r t0 tb t1|id requested r
                |id r|id stop remove]; simpl; unfold after.
  - unfold createSite, sitesSet, emit. msimpl.
    destruct materialize; simpl; rewrite insert_insert_eq;
      apply invariants_insert; simpl; auto; discriminate.
  - unfold buildSite, getOrThrow, sitesSet, emit, execAsync. msimpl.
    destruct (sites m !! id) as [site|] eqn:Hsite; simpl; [|assumption].
    pose proof (Hk _ _ Hsite).
    destruct r; simpl; rewrite !insert_insert_eq;
      apply invariants_insert; simpl; auto; discriminate.
  - unfold serveSite, getOrThrow, sitesSet, emit, execAsync, setupFileWatcher,
      findAvailablePort.
    msimpl.
    destruct (sites m !! id) as [site|] eqn:Hsite; simpl; [|assumption].
    pose proof (Hk _ _ Hsite).
    destruct (numTruthy requested); simpl;
      destruct r; simpl; apply invariants_insert; simpl; eauto; discriminate.
  - unfold stopSite, getOrThrow, sitesSet, emit, execAsync. msimpl.
    destruct (sites m !! id) as [site|] eqn:Hsite; simpl; [|assumption].
    pose proof (Hk _ _ Hsite).
    destruct r; simpl; [|assumption].
    apply invariants_insert; simpl; auto; discriminate.
  - unfold deleteSite, stopSite, getOrThrow, sitesSet, emit, execAsync. msimpl.
    destruct (sites m !! id) as [site|] eqn:Hsite; simpl; [|assumption].
    pose proof (Hk _ _ Hsite).
    destruct (decide (status site = Serving)); simpl.
    + rewrite Hsite. simpl.
      destruct stop; simpl; destruct remove; simpl;
        try apply invariants_delete; try apply invariants_insert;
        simpl; auto; discriminate.
    + destruct remove; simpl; [assumption|]. by apply invariants_delete.
Qed.

Lemma performAll_keeps_invariants (ops : list Op) :
  ∀ m,
    keyedById (sites m) ∧ settled (sites m) ∧ servingHavePorts (sites m) →
    keyedById (sites (performAll ops m)) ∧
    settled (sites (performAll ops m)) ∧
    servingHavePorts (sites (performAll ops m)).
Proof.
  induction ops as [|o ops IH]; intros m Hm; [assumption|].
  simpl. apply IH. by apply perform_keeps_invariants.
Qed.

Lemma fresh_manager_invariants (cwd : string) :
  keyedById (sites (new cwd)) ∧ settled (sites (new cwd)) ∧
  servingHavePorts (sites (new cwd)).
Proof.
  repeat split; intros i s Hi; simpl in Hi; by rewrite lookup_empty in Hi.
Qed.

(** X1.  Whatever operations have run on a fresh manager and whatever the
    outside world answered, every record of the registry is stored under
    its own [id]: [getSite(i)] never returns a site whose [id] is not [i]. *)
Theorem registry_keyed_by_id (ops : list Op) (cwd i : string)
    (s : JekyllSite) :
  getSite i (performAll ops (new cwd)) = Some s → siteId s = i.
Proof.
  destruct (performAll_keeps_invariants ops _ (fresh_manager_invariants cwd))
    as (Hk & _ & _).
  apply Hk.
Qed.

Lemma registry_keyed_by_id_witness :
  siteId (mkSite "id-a" "alpha" "/app/projects/alpha" Ready None 1 None)
  = "id-a".
Proof.
  apply (registry_keyed_by_id
           [OpCreate None (Scenario.structureNamed "alpha") "id-a" 1 None]
           "/app" "id-a").
  vm_compute. reflexivity.
Defined.



End RegistryProps.

Module OperationProps.
Import Manager Props Ops MoreProps ManagerFacts.

(** X4.  [buildSite], [serveSite], [stopSite] and [deleteSite] on an id the
    registry does not hold throw "Site not found" and change nothing: no
    event is emitted and no command is run. *)
Theorem unknown_site_is_refused (m : State) (id : string) :
  sites m !! id = None →
  (∀ r t0 tb t1,
     buildSite id r t0 tb t1 m = (Thrown (JsError "Site not found"), m)) ∧
  (∀ requested r,
     serveSite id requested r m = (Thrown (JsError "Site not found"), m)) ∧
  (∀ r, stopSite id r m = (Thrown (JsError "Site not found"), m)) ∧
  (∀ stop remove,
     deleteSite id stop remove m = (Thrown (JsError "Site not found"), m)).
Proof.
  intros Hnone. repeat split; intros;
    unfold buildSite, serveSite, stopSite, deleteSite, getOrThrow; msimpl;
    by rewrite Hnone.
Qed.

Lemma unknown_site_is_refused_witness :
  stopSite "id-z" Scenario.ok Scenario.fleet =
    (Thrown (JsError "Site not found"), Scenario.fleet).
Proof.
  destruct (unknown_site_is_refused Scenario.fleet "id-z")
    as (_ & _ & Hstop & _); [vm_compute; reflexivity|].
  apply Hstop.
Defined.

(** X5.  When the build command succeeds, [buildSite] returns a result with
    [success = true] carrying the command's standard output, the site is
    ['ready'] with [lastBuilt] stamped and its other fields (its port among
    them) as before, the other sites are untouched, and the events are the
    two status changes followed by ['siteBuilt']. *)
Theorem buildSite_success (m : State) (id : string) (site : JekyllSite)
    (out err : string) (startTime builtAt endTime : Z) :
  sites m !! id = Some site →
  let built := set_lastBuilt (Some builtAt) (set_status Ready site) in
  ∃ m',
    buildSite id (ExecOk out err) startTime builtAt endTime m =
      (Returned (mkBuildResult true out None (endTime - startTime)), m') ∧
    sites m' = <[id := built]> (sites m) ∧
    emitted m' = emitted m ++ [siteStatusChanged (set_status Building site);
                               siteStatusChanged built; siteBuilt built] ∧
    executed m' = executed m ++ [DockerBuild (name site)].
Proof.
  intros Hsite built.
  unfold buildSite, getOrThrow, sitesSet, emit, execAsync. msimpl.
  rewrite Hsite. simpl. eexists. split; [reflexivity|]. simpl.
  split; [by rewrite insert_insert_eq|]. split; [|reflexivity].
  by rewrite <- !app_assoc.
Qed.

Lemma buildSite_success_witness :
  ∃ m', buildSite "id-a" (ExecOk "done" "") 10 11 12 Scenario.fleet =
          (Returned (mkBuildResult true "done" None 2), m') ∧
        lastBuilt <$> sites m' !! "id-a" = Some (Some 11%Z).
Proof.
  destruct (buildSite_success Scenario.fleet "id-a"
              (mkSite "id-a" "alpha" "/app/projects/alpha" Ready None 1 None)
              "done" "" 10 11 12)
    as (m' & Hrun & Hsites & _); [vm_compute; reflexivity|].
  exists m'. split; [exact Hrun|]. rewrite Hsites, lookup_insert_eq.
  reflexivity.
Defined.

(** X6.  When the preview fails to start, [serveSite] re-throws the error:
    the site is ['error'], its port is whatever it was (the candidate port
    is not stored), no watcher is created, the other sites are untouched and
    the only event is the status change. *)
Theorem serveSite_start_failure (m : State) (id : string) (site : JekyllSite)
    (requested : option Z) (e : ExecError) :
  sites m !! id = Some site →
  ∃ m',
    serveSite id requested (ExecRejected e) m = (Thrown (ExecFailure e), m') ∧
    sites m' = <[id := set_status Failed site]> (sites m) ∧
    watchers m' = watchers m ∧
    onceSiteStopped m' = onceSiteStopped m ∧
    emitted m' = emitted m ++ [siteStatusChanged (set_status Failed site)].
Proof.
  intros Hsite.
  unfold serveSite, getOrThrow, sitesSet, emit, execAsync, findAvailablePort.
  msimpl. rewrite Hsite. simpl.
  destruct (numTruthy requested); simpl; eexists; (split; [reflexivity|]);
    done.
Qed.

Lemma serveSite_start_failure_witness :
  ∃ m', serveSite "id-a" None
          (ExecRejected (mkExecError None None "port is already allocated"))
          Scenario.fleet =
          (Thrown (ExecFailure
                     (mkExecError None None "port is already allocated")), m') ∧
        status <$> sites m' !! "id-a" = Some Failed.
Proof.
  destruct (serveSite_start_failure Scenario.fleet "id-a"
              (mkSite "id-a" "alpha" "/app/projects/alpha" Ready None 1 None)
              None (mkExecError None None "port is already allocated"))
    as (m' & Hrun & Hsites & _); [vm_compute; reflexivity|].
  exists m'. split; [exact Hrun|]. rewrite Hsites, lookup_insert_eq.
  reflexivity.
Defined.

(** When writing the site's files fails, [createSite] throws that
    error, yet the record stays in the registry with status ['error']; the
    events are the two status changes, and no ['siteCreated']. *)
Theorem createSite_failure_leaves_record (m : State) (passed : option string)
    (structure : Structure) (uuid : string) (now : Z) (x : Exn) :
  ∃ site m',
    createSite passed structure uuid now (Some x) m = (Thrown x, m') ∧
    siteId site = uuid ∧ status site = Failed ∧ port site = None ∧
    sites m' = <[uuid := site]> (sites m) ∧
    emitted m' = emitted m ++ [siteStatusChanged (set_status Creating site);
                               siteStatusChanged site].
Proof.
  set (siteName :=
         strOr (s_name structure) (strOr passed ("site-" +:+ uuid))).
  exists (mkSite uuid siteName (path_join (projectsDir m) siteName) Failed
                 None now None).
  unfold createSite, sitesSet, emit. msimpl. simpl.
  eexists. split; [reflexivity|]. simpl.
  split; [reflexivity|]. split; [reflexivity|]. split; [reflexivity|].
  split; [by rewrite insert_insert_eq|]. by rewrite <- !app_assoc.
Qed.

(** *** Watchers *)

Lemma runStopListener_length stopped l ws :
  length (runStopListener stopped l ws) = length ws.
Proof.
  unfold runStopListener, closeWatcher.
  destruct (decide _); [apply length_alter|reflexivity].
Qed.

Lemma foldl_runStopListener_length stopped ls :
  ∀ ws, length (foldl (λ ws l, runStopListener stopped l ws) ws ls)
        = length ws.
Proof.
  induction ls as [|l ls IH]; intros ws; [reflexivity|].
  simpl. by rewrite IH, runStopListener_length.
Qed.

Lemma closeWatcher_closes (w : nat) (ws : list Watcher) :
  w < length ws →
  ∃ x, closeWatcher w ws !! w = Some x ∧ w_closed x = true.
Proof.
  intros Hw. destruct (lookup_lt_is_Some_2 ws w Hw) as [x Hx].
  eexists. unfold closeWatcher.
  rewrite list_lookup_alter_eq, Hx. split; reflexivity.
Qed.

Lemma runStopListener_own stopped l ws :
  siteId stopped = l_site l →
  runStopListener stopped l ws = closeWatcher (l_watcher l) ws.
Proof. intros Hown. unfold runStopListener. by rewrite decide_True. Qed.

Lemma stop_after_serve_watchers stopped (ls : list StopListener) (ws : list Watcher) x :
  let ws' := foldl (λ ws l, runStopListener stopped l ws) (ws ++ [x])
               (ls ++ [mkStopListener (siteId stopped) (length ws)]) in
  length ws' = S (length ws) ∧
  ∃ y, ws' !! length ws = Some y ∧ w_closed y = true.
Proof.
  intros ws'. unfold ws'. rewrite foldl_app. simpl.
  rewrite runStopListener_own by reflexivity. simpl.
  split.
  - unfold closeWatcher.
    rewrite length_alter, foldl_runStopListener_length, length_app. simpl. lia.
  - apply closeWatcher_closes.
    rewrite foldl_runStopListener_length, length_app. simpl. lia.
Qed.

(** X7.  Serve followed by Stop is a round trip on the registry: for a
    ['ready'] site without a port, once the preview has started and then
    been stopped, the registry is exactly what it was, the watcher that the
    serve created is closed, and no clean-up listener is left. *)
Theorem serve_then_stop_round_trip (m : State) (id : string)
    (site : JekyllSite) (requested : option Z) (out err out' err' : string) :
  sites m !! id = Some site →
  status site = Ready →
  port site = None →
  let served := after (serveSite id requested (ExecOk out err)) m in
  let stopped := after (stopSite id (ExecOk out' err')) served in
  sites stopped = sites m ∧
  length (watchers stopped) = S (length (watchers m)) ∧
  closed (length (watchers m)) stopped ∧
  onceSiteStopped stopped = [].
Proof.
  intros Hsite Hst Hport served stopped.
  assert (Hback : ∀ p, set_port None (set_status Ready
                         (set_port (Some p) (set_status Serving site))) = site).
  { intros p. destruct site; simpl in *; by subst. }
  unfold stopped, served, after, serveSite, stopSite, getOrThrow, sitesSet,
    emit, execAsync, setupFileWatcher, findAvailablePort.
  msimpl. rewrite Hsite. simpl.
  destruct (numTruthy requested); simpl; rewrite lookup_insert_eq; simpl;
    rewrite insert_insert_eq, Hback;
    (split; [by apply insert_id|]);
    unfold closed; simpl;
    match goal with
    | |- context [foldl _ (?ws ++ [?x]) (?ls ++ [_])] =>
        destruct (stop_after_serve_watchers site ls ws x) as [Hlen Hcl]
    end; done.
Qed.
Lemma serve_then_stop_round_trip_witness :
  sites (after (stopSite "id-a" Scenario.ok)
           (after (serveSite "id-a" None Scenario.ok) Scenario.fleet))
  = sites Scenario.fleet.
Proof.
  apply (serve_then_stop_round_trip Scenario.fleet "id-a"
           (mkSite "id-a" "alpha" "/app/projects/alpha" Ready None 1 None)
           None "" "" "" "").
  - vm_compute. reflexivity.
  - reflexivity.
  - reflexivity.
Defined.

Lemma runStopListener_other stopped l ws w :
  l_watcher l ≠ w → runStopListener stopped l ws !! w = ws !! w.
Proof.
  intros Hne. unfold runStopListener, closeWatcher.
  destruct (decide _); [|reflexivity]. by apply list_lookup_alter_ne.
Qed.

Lemma foldl_runStopListener_other stopped ls w :
  ∀ ws, Forall (λ l, l_watcher l ≠ w) ls →
    foldl (λ ws l, runStopListener stopped l ws) ws ls !! w = ws !! w.
Proof.
  induction ls as [|l ls IH]; intros ws Hls; [reflexivity|].
  apply Forall_cons in Hls as [Hl Hls].
  simpl. rewrite IH by assumption. by apply runStopListener_other.
Qed.

Lemma perform_keeps_orphaned (o : Op) (m : State) (w : nat) (x : Watcher) :
  orphaned w x m → orphaned w x (perform o m).
Proof.
  intros [Hw Hls].
  assert (Hfold : ∀ stopped,
    foldl (λ ws l, runStopListener stopped l ws) (watchers m)
          (onceSiteStopped m) !! w = Some x).
  { intros stopped. by rewrite foldl_runStopListener_other. }
  assert (Hnew : ∀ y l_site,
    orphaned w x
      (mkState (sites m) (projectsDir m) (watchers m ++ [y])
         (onceSiteStopped m ++ [mkStopListener l_site (length (watchers m))])
         (emitted m) (executed m))).
  { intros y l_site. split; simpl.
    - by apply lookup_app_l_Some.
    - apply Forall_app. split; [assumption|]. repeat constructor. simpl.
      apply lookup_lt_Some in Hw. lia. }
  destruct o as [n structure uuid now materialize|id r t0 tb t1|id requested r
                |id r|id stop remove]; simpl; unfold after, orphaned.
  - unfold createSite, sitesSet, emit. msimpl.
    by destruct materialize.
  - unfold buildSite, getOrThrow, sitesSet, emit, execAsync. msimpl.
    destruct (sites m !! id) as [site|]; simpl; [|done].
    by destruct r.
  - unfold serveSite, getOrThrow, sitesSet, emit, execAsync, setupFileWatcher,
      findAvailablePort.
    msimpl.
    destruct (sites m !! id) as [site|]; simpl; [|done].
    destruct (numTruthy requested); simpl; destruct r; simpl;
      solve [done | apply Hnew].
  - unfold stopSite, getOrThrow, sitesSet, emit, execAsync. msimpl.
    destruct (sites m !! id) as [site|]; simpl; [|done].
    destruct r; simpl; [|done]. split; [apply Hfold|constructor].
  - unfold deleteSite, stopSite, getOrThrow, sitesSet, emit, execAsync. msimpl.
    destruct (sites m !! id) as [site|] eqn:Hsite; simpl; [|done].
    destruct (decide (status site = Serving)); simpl.
    + rewrite Hsite. simpl.
      destruct stop; simpl; destruct remove; simpl;
        solve [done | split; [apply Hfold|constructor]].
    + by destruct remove.
Qed.

Lemma happenAll_keeps_orphaned (hs : list Happening) (w : nat) (x : Watcher) :
  ∀ m, orphaned w x m → orphaned w x (happenAll hs m).
Proof.
  induction hs as [|h hs IH]; intros m Hm; [assumption|].
  simpl. apply IH. destruct h as [o|w' filePath]; simpl.
  - by apply perform_keeps_orphaned.
  - destruct Hm as [Hw Hls]. unfold after, watcherChange, emit. msimpl.
    destruct (watchers m !! w') as [y|]; [|done].
    by destruct (w_closed y).
Qed.

(** X8.  A successful stop of any site consumes the clean-up listener of
    every watcher, so a watcher that is still open after it is never
    closed: whatever operations and file changes follow, it is unchanged,
    and each change it reports is still emitted as ['fileChanged'] for its
    site. *)
Theorem orphaned_watcher_never_closes (m : State) (id : string)
    (site : JekyllSite) (out err : string) (w : nat) (x : Watcher)
    (hs : list Happening) (filePath : string) :
  sites m !! id = Some site →
  let stopped := after (stopSite id (ExecOk out err)) m in
  watchers stopped !! w = Some x →
  w_closed x = false →
  let later := happenAll hs stopped in
  watchers later !! w = Some x ∧
  emitted (happen (FileChange w filePath) later)
    = emitted later ++ [fileChanged (w_site x) filePath].
Proof.
  intros Hsite stopped Hw Hopen later.
  assert (Horphan : orphaned w x stopped).
  { split; [assumption|].
    unfold stopped, after, stopSite, getOrThrow, sitesSet, emit, execAsync.
    msimpl. rewrite Hsite. simpl. constructor. }
  destruct (happenAll_keeps_orphaned hs w x stopped Horphan) as [Hlater _].
  fold later in Hlater. split; [assumption|].
  simpl. unfold after, watcherChange, emit. msimpl.
  by rewrite Hlater, Hopen.
Qed.

Lemma orphaned_watcher_never_closes_witness :
  watchers
    (happenAll [Operation (OpStop "id-a" Scenario.ok);
                Operation (OpDelete "id-a" Scenario.ok None)]
       (after (stopSite "id-b" Scenario.ok) Scenario.bothServing)) !! 0
  = Some (mkWatcher "id-a" "/app/projects/alpha" false).
Proof.
  destruct (orphaned_watcher_never_closes Scenario.bothServing "id-b"
              (mkSite "id-b" "beta" "/app/projects/beta" Serving
                      (Some 4001%Z) 2 None) "" "" 0
              (mkWatcher "id-a" "/app/projects/alpha" false)
              [Operation (OpStop "id-a" Scenario.ok);
               Operation (OpDelete "id-a" Scenario.ok None)] "index.md")
    as [Hopen _];
    [vm_compute; reflexivity | vm_compute; reflexivity | reflexivity |].
  exact Hopen.
Defined.

(** X9.  [deleteSite] on a registered site whose directory is removed
    returns normally whatever its status and whatever the stop command
    answers: the record is gone ([getSite] no longer finds it), the other
    records are as before, and the last event is ['siteDeleted'] for a
    record of that id and name. *)
Theorem deleteSite_removes (m : State) (id : string) (site : JekyllSite)
    (stop : ExecResult) :
  sites m !! id = Some site →
  ∃ m' s',
    deleteSite id stop None m = (Returned tt, m') ∧
    sites m' = delete id (sites m) ∧
    getSite id m' = None ∧
    last (emitted m') = Some (siteDeleted s') ∧
    siteId s' = siteId site ∧ name s' = name site.
Proof.
  intros Hsite.
  unfold deleteSite, stopSite, getOrThrow, sitesSet, emit, execAsync, getSite.
  msimpl. rewrite Hsite. simpl.
  destruct (decide (status site = Serving)); simpl.
  - rewrite Hsite. simpl. destruct stop; simpl.
    + rewrite lookup_insert_eq. simpl. eexists _, _.
      split; [reflexivity|]. simpl.
      split; [by rewrite delete_insert_eq|].
      split; [by rewrite delete_insert_eq, lookup_delete_eq|].
      split; [by rewrite last_snoc|]. done.
    + rewrite Hsite. simpl. eexists _, _. split; [reflexivity|]. simpl.
      split; [reflexivity|]. split; [apply lookup_delete_eq|].
      split; [by rewrite last_snoc|]. done.
  - rewrite Hsite. simpl. eexists _, _. split; [reflexivity|]. simpl.
    split; [reflexivity|]. split; [apply lookup_delete_eq|].
    split; [by rewrite last_snoc|]. done.
Qed.

Lemma deleteSite_removes_witness :
  ∃ m', deleteSite "id-a" Scenario.ok None Scenario.alphaServing
          = (Returned tt, m') ∧
        getSite "id-a" m' = None.
Proof.
  destruct (deleteSite_removes Scenario.alphaServing "id-a"
              (mkSite "id-a" "alpha" "/app/projects/alpha" Serving
                      (Some 4000%Z) 1 None) Scenario.ok)
    as (m' & s' & Hrun & _ & Hgone & _); [vm_compute; reflexivity|].
  exists m'. split; assumption.
Defined.

(** X10.  When removing the directory fails, [deleteSite] throws that error
    and the site stays registered; if it was serving and the stop command
    succeeded, it has nevertheless been stopped (['ready'], port cleared). *)
Theorem deleteSite_remove_failure (m : State) (id : string)
    (site : JekyllSite) (stop : ExecResult) (x : Exn) :
  sites m !! id = Some site →
  ∃ m' s',
    deleteSite id stop (Some x) m = (Thrown x, m') ∧
    sites m' !! id = Some s' ∧
    s' = (match stop with
          | ExecOk _ _ =>
              if decide (status site = Serving)
              then set_port None (set_status Ready site) else site
          | ExecRejected _ => site
          end) ∧
    Forall (λ ev, ∀ s, ev ≠ siteDeleted s)
           (drop (length (emitted m)) (emitted m')).
Proof.
  intros Hsite.
  unfold deleteSite, stopSite, getOrThrow, sitesSet, emit, execAsync.
  msimpl. rewrite Hsite. simpl.
  destruct (decide (status site = Serving)); simpl.
  - rewrite Hsite. simpl. destruct stop; simpl.
    + eexists _, _. split; [reflexivity|]. simpl.
      split; [apply lookup_insert_eq|]. split; [reflexivity|].
      rewrite <- app_assoc, drop_app_length. repeat constructor; discriminate.
    + eexists _, _. split; [reflexivity|]. simpl.
      split; [eassumption|]. split; [reflexivity|].
      rewrite drop_all. constructor.
  - eexists _, _. split; [reflexivity|]. simpl.
    split; [eassumption|]. split; [by destruct stop|].
    rewrite drop_all. constructor.
Qed.

Lemma deleteSite_remove_failure_witness :
  ∃ m', deleteSite "id-a" Scenario.ok (Some (FsFailure "EBUSY"))
          Scenario.alphaServing = (Thrown (FsFailure "EBUSY"), m') ∧
        status <$> sites m' !! "id-a" = Some Ready.
Proof.
  destruct (deleteSite_remove_failure Scenario.alphaServing "id-a"
              (mkSite "id-a" "alpha" "/app/projects/alpha" Serving
                      (Some 4000%Z) 1 None) Scenario.ok (FsFailure "EBUSY"))
    as (m' & s' & Hrun & Hs & Heq & _); [vm_compute; reflexivity|].
  exists m'. split; [exact Hrun|]. rewrite Hs, Heq. reflexivity.
Defined.

End OperationProps.

Module ServeRouteProps.
Import Manager Props MoreProps ManagerFacts.
Import ServeRoute.

(** X11.  Every refusal of the serve route leaves the manager untouched:
    unless the answer is a started preview, a stop, or a 500, the state
    after the request is the state before it. *)
Theorem refusals_change_nothing (securityPassed : bool) (method : Method)
    (id : option string) (bp : BodyPort) (r : ExecResult) (m : State) :
  match (handler securityPassed method id bp r m).1 with
  | Some (ServeStarted _ _ _) | Some StopDone | Some (InternalError _) => True
  | _ => (handler securityPassed method id bp r m).2 = m
  end.
Proof.
  unfold handler. destruct securityPassed; simpl; [|reflexivity].
  destruct id as [id|]; [|reflexivity].
  destruct (decide (id = "")); [reflexivity|].
  destruct (getSite id m) as [site|]; [|reflexivity].
  destruct method; try reflexivity.
  - destruct (portTruthy bp && portInvalid bp); [reflexivity|].
    destruct (decide (status site = Serving)); [reflexivity|].
    by destruct (serveSite id (portArgument bp) r m) as [[p|x] m'].
  - destruct (decide (status site ≠ Serving)); [reflexivity|].
    by destruct (stopSite id r m) as [[u|x] m'].
Qed.

(** X12.  Two Serve requests in a row report the same port: on a registered
    site that is not serving, a request the range check accepts and whose
    preview starts is answered with a port [p] and makes the site serving on
    [p]; any following Serve request the range check accepts is answered 409
    with that same [p] and changes nothing. *)
Theorem serve_twice_reports_same_port (m : State) (id : string)
    (site : JekyllSite) (bp : BodyPort) (out err : string) :
  id ≠ "" →
  sites m !! id = Some site →
  status site ≠ Serving →
  portTruthy bp && portInvalid bp = false →
  ∃ p m',
    handler true POST (Some id) bp (ExecOk out err) m =
      (Some (ServeStarted p (siteId site) (name site)), m') ∧
    sites m' !! id = Some (set_port (Some p) (set_status Serving site)) ∧
    ∀ bp' r',
      portTruthy bp' && portInvalid bp' = false →
      handler true POST (Some id) bp' r' m' =
        (Some (AlreadyServing (Some p)), m').
Proof.
  intros Hid Hsite Hst Hbp.
  assert (Hfirst : ∃ p m',
    serveSite id (portArgument bp) (ExecOk out err) m = (Returned p, m') ∧
    sites m' !! id = Some (set_port (Some p) (set_status Serving site))).
  { unfold serveSite, getOrThrow, sitesSet, emit, execAsync,
      setupFileWatcher, findAvailablePort.
    msimpl. rewrite Hsite. simpl.
    destruct (numTruthy (portArgument bp)); simpl;
      eexists _, _; (split; [reflexivity|]); simpl;
      by rewrite lookup_insert_eq. }
  destruct Hfirst as (p & m' & Hrun & Hsite').
  exists p, m'. split; [|split; [assumption|]].
  - unfold handler, getSite. simpl.
    rewrite decide_False by assumption. rewrite Hsite, Hbp.
    rewrite decide_False by assumption. by rewrite Hrun.
  - intros bp' r' Hbp'. unfold handler, getSite. simpl.
    rewrite decide_False by assumption. rewrite Hsite', Hbp'.
    by rewrite decide_True by reflexivity.
Qed.

Lemma serve_twice_reports_same_port_witness :
  ∃ p m',
    handler true POST (Some "id-a") (PortNumber 5000) (ExecOk "" "")
      Scenario.fleet = (Some (ServeStarted p "id-a" "alpha"), m') ∧
    handler true POST (Some "id-a") PortAbsent (ExecOk "" "") m' =
      (Some (AlreadyServing (Some p)), m').
Proof.
  destruct (serve_twice_reports_same_port Scenario.fleet "id-a"
              (mkSite "id-a" "alpha" "/app/projects/alpha" Ready None 1 None)
              (PortNumber 5000) "" "")
    as (p & m' & Hfirst & _ & Hsecond);
    [discriminate | vm_compute; reflexivity | discriminate | reflexivity |].
  exists p, m'. split; [exact Hfirst|]. by apply Hsecond.
Defined.

(** X13.  The stop route reports success even when the stop command fails:
    for a serving site whose [docker compose down] is rejected, the answer
    is still 200 "stopped successfully", while the site stays ['serving']
    with its port and no event is emitted. *)
Theorem stop_route_hides_stop_failure (m : State) (id : string)
    (site : JekyllSite) (bp : BodyPort) (e : ExecError) :
  id ≠ "" →
  sites m !! id = Some site →
  status site = Serving →
  ∃ m',
    handler true DELETE (Some id) bp (ExecRejected e) m = (Some StopDone, m') ∧
    sites m' = sites m ∧ emitted m' = emitted m ∧
    executed m' = executed m ++ [DockerDown].
Proof.
  intros Hid Hsite Hst. unfold handler, getSite. simpl.
  rewrite decide_False by assumption. rewrite Hsite.
  rewrite decide_False by (intros Hne; by apply Hne).
  unfold stopSite, getOrThrow, execAsync. msimpl. rewrite Hsite. simpl.
  eexists. split; [reflexivity|]. done.
Qed.

Lemma stop_route_hides_stop_failure_witness :
  ∃ m',
    handler true DELETE (Some "id-a") PortAbsent
      (ExecRejected (mkExecError None None "no daemon"))
      Scenario.alphaServing = (Some StopDone, m') ∧
    status <$> sites m' !! "id-a" = Some Serving.
Proof.
  destruct (stop_route_hides_stop_failure Scenario.alphaServing "id-a"
              (mkSite "id-a" "alpha" "/app/projects/alpha" Serving
                      (Some 4000%Z) 1 None) PortAbsent
              (mkExecError None None "no daemon"))
    as (m' & Hrun & Hsites & _);
    [discriminate | vm_compute; reflexivity | reflexivity |].
  exists m'. split; [exact Hrun|]. rewrite Hsites. vm_compute. reflexivity.
Defined.

(** X14.  A falsy [port] in the body is no request at all: [{port: 0}], or
    a falsy value that is not a number, is handled exactly as a body without
    [port], so the manager allocates the port. *)
Theorem falsy_port_is_no_port (securityPassed : bool) (method : Method)
    (id : option string) (r : ExecResult) (m : State) :
  handler securityPassed method id (PortNumber 0) r m =
    handler securityPassed method id PortAbsent r m ∧
  handler securityPassed method id (PortNotNumber false) r m =
    handler securityPassed method id PortAbsent r m.
Proof.
  split; unfold handler; destruct securityPassed; simpl; try reflexivity;
    destruct id as [id|]; try reflexivity;
    destruct (decide (id = "")); try reflexivity;
    destruct (getSite id m) as [site|]; try reflexivity;
    destruct method; try reflexivity;
    destruct (decide (status site = Serving)); try reflexivity;
    unfold serveSite; msimpl; reflexivity.
Qed.

(** X15.  The bounds of the range check: on a registered site that is not
    serving, a non-zero numeric port [n] is served as requested when
    3000 <= n <= 9999 (the preview is started on [n] and the site ends
    serving on [n]), and is refused with 400, nothing being run, when it is
    below 3000 or above 9999. *)
Theorem requested_port_bounds (m : State) (id : string) (site : JekyllSite)
    (n : Z) (out err : string) :
  id ≠ "" →
  sites m !! id = Some site →
  status site ≠ Serving →
  n ≠ 0%Z →
  ((3000 ≤ n ≤ 9999)%Z →
     ∃ m', handler true POST (Some id) (PortNumber n) (ExecOk out err) m =
             (Some (ServeStarted n (siteId site) (name site)), m') ∧
           sites m' !! id = Some (set_port (Some n) (set_status Serving site)) ∧
           executed m' = executed m ++ [DockerServe (name site) n]) ∧
  (¬ (3000 ≤ n ≤ 9999)%Z →
     handler true POST (Some id) (PortNumber n) (ExecOk out err) m =
       (Some PortOutOfRange, m)).
Proof.
  intros Hid Hsite Hst Hn. split.
  - intros Hrange. unfold handler, getSite. simpl.
    rewrite decide_False by assumption. rewrite Hsite. simpl.
    rewrite bool_decide_eq_true_2 by assumption. simpl.
    rewrite !bool_decide_eq_false_2 by lia. simpl.
    rewrite decide_False by assumption.
    unfold serveSite, getOrThrow, sitesSet, emit, execAsync, setupFileWatcher.
    msimpl. rewrite Hsite. simpl.
    rewrite bool_decide_eq_true_2 by assumption. simpl.
    eexists. split; [reflexivity|]. simpl.
    split; [by rewrite lookup_insert_eq|reflexivity].
  - intros Hrange. unfold handler, getSite. simpl.
    rewrite decide_False by assumption. rewrite Hsite. simpl.
    rewrite bool_decide_eq_true_2 by assumption. simpl.
    destruct (decide (n < 3000)%Z).
    + by rewrite (bool_decide_eq_true_2 (n < 3000)%Z).
    + rewrite (bool_decide_eq_false_2 (n < 3000)%Z) by assumption.
      by rewrite (bool_decide_eq_true_2 (n > 9999)%Z) by lia.
Qed.

Lemma requested_port_bounds_witness :
  handler true POST (Some "id-a") (PortNumber 10000) (ExecOk "" "")
    Scenario.fleet = (Some PortOutOfRange, Scenario.fleet) ∧
  ∃ m', handler true POST (Some "id-a") (PortNumber 9999) (ExecOk "" "")
          Scenario.fleet = (Some (ServeStarted 9999 "id-a" "alpha"), m').
Proof.
  split.
  - destruct (requested_port_bounds Scenario.fleet "id-a"
                (mkSite "id-a" "alpha" "/app/projects/alpha" Ready None 1 None)
                10000 "" "") as [_ Hout];
      [discriminate | vm_compute; reflexivity | discriminate | lia |].
    apply Hout. lia.
  - destruct (requested_port_bounds Scenario.fleet "id-a"
                (mkSite "id-a" "alpha" "/app/projects/alpha" Ready None 1 None)
                9999 "" "") as [Hin _];
      [discriminate | vm_compute; reflexivity | discriminate | lia |].
    destruct Hin as (m' & Hrun & _); [lia|]. by exists m'.
Defined.

(** Stop through the route, then Stop again: on a serving site whose
    stop command succeeds the answer is 200 and the site is ['ready'] with
    its port cleared; a second Stop request is then refused with 400 and
    changes nothing. *)
Theorem stop_twice_second_is_refused (m : State) (id : string)
    (site : JekyllSite) (bp : BodyPort) (out err : string) :
  id ≠ "" →
  sites m !! id = Some site →
  status site = Serving →
  ∃ m',
    handler true DELETE (Some id) bp (ExecOk out err) m = (Some StopDone, m') ∧
    sites m' !! id = Some (set_port None (set_status Ready site)) ∧
    ∀ bp' r', handler true DELETE (Some id) bp' r' m' = (Some NotServing, m').
Proof.
  intros Hid Hsite Hst. unfold handler, getSite. simpl.
  rewrite decide_False by assumption. rewrite Hsite.
  rewrite decide_False by (intros Hne; by apply Hne).
  unfold stopSite, getOrThrow, sitesSet, emit, execAsync. msimpl.
  rewrite Hsite. simpl.
  eexists. split; [reflexivity|]. simpl.
  split; [by rewrite lookup_insert_eq|].
  intros bp' r'. rewrite decide_False by assumption.
  rewrite lookup_insert_eq. by rewrite decide_True by discriminate.
Qed.

Lemma stop_twice_second_is_refused_witness :
  ∃ m',
    handler true DELETE (Some "id-a") PortAbsent (ExecOk "" "")
      Scenario.alphaServing = (Some StopDone, m') ∧
    handler true DELETE (Some "id-a") PortAbsent (ExecOk "" "") m' =
      (Some NotServing, m').
Proof.
  destruct (stop_twice_second_is_refused Scenario.alphaServing "id-a"
              (mkSite "id-a" "alpha" "/app/projects/alpha" Serving
                      (Some 4000%Z) 1 None) PortAbsent "" "")
    as (m' & Hrun & _ & Hagain);
    [discriminate | vm_compute; reflexivity | reflexivity |].
  exists m'. split; [exact Hrun | apply Hagain].
Defined.

End ServeRouteProps.

Module MiddlewareProps.
Import Stdlib.Strings.Ascii.
Import Middleware.

Lemma isNameChar_spec (c : Ascii.ascii) (n : nat) :
  n = Ascii.nat_of_ascii c →
  isNameChar c = true →
  (97 ≤ n ≤ 122) ∨ (65 ≤ n ≤ 90) ∨ (48 ≤ n ≤ 57) ∨ n = 95 ∨ n = 45.
Proof.
  unfold isNameChar. intros <- H. cbv zeta in H.
  repeat (apply orb_true_iff in H as [H|H]);
    repeat (apply andb_true_iff in H as [? H]);
    repeat match goal with
           | H : (_ <=? _) = true |- _ => apply Nat.leb_le in H
           | H : (_ =? _) = true |- _ => apply Nat.eqb_eq in H
           end; lia.
Qed.

(** X16.  A name that [validateSiteName] accepts is 3 to 50 characters long
    and made of ASCII letters, digits, [_] and [-] only.  In particular it
    is not empty and contains no slash, backslash, dot or space, so it
    names a direct child of the projects directory. *)
Theorem accepted_name_is_plain (name : string) :
  validateSiteName name = None →
  3 ≤ String.length name ≤ 50 ∧
  ∀ c, In c (String.list_ascii_of_string name) →
    isNameChar c = true ∧
    c ≠ "/"%char ∧ c ≠ "\"%char ∧ c ≠ "."%char ∧ c ≠ " "%char.
Proof.
  unfold validateSiteName. intros Hok.
  destruct (decide (name = "")); [discriminate|].
  destruct (String.length name <? 3) eqn:Hlo; [discriminate|].
  destruct (50 <? String.length name) eqn:Hhi; [discriminate|].
  simpl in Hok.
  destruct (matchesNamePattern name) eqn:Hpat; [|discriminate].
  apply Nat.ltb_ge in Hlo, Hhi. split; [lia|].
  intros c Hc. unfold matchesNamePattern in Hpat.
  apply andb_true_iff in Hpat as [_ Hall].
  rewrite forallb_forall in Hall. specialize (Hall c Hc).
  split; [assumption|].
  pose proof (isNameChar_spec c _ eq_refl Hall) as Hn.
  repeat split; intros ->; vm_compute in Hn; lia.
Qed.

Lemma accepted_name_is_plain_witness :
  3 ≤ String.length "my-blog_2" ≤ 50.
Proof.
  apply (accepted_name_is_plain "my-blog_2"). vm_compute. reflexivity.
Defined.

(** X17.  Reserved names are refused whatever their letter case: a name
    whose lower-case form is one of api, admin, www, mail, ftp, localhost,
    example is never accepted. *)
Theorem reserved_name_any_case (name : string) :
  toLowerCase name ∈ reservedNames → validateSiteName name ≠ None.
Proof.
  intros Hres. unfold validateSiteName.
  destruct (decide (name = "")); [discriminate|].
  destruct ((String.length name <? 3) || (50 <? String.length name));
    [discriminate|].
  destruct (negb (matchesNamePattern name)); [discriminate|].
  by rewrite bool_decide_eq_true_2.
Qed.

Lemma reserved_name_any_case_witness :
  validateSiteName "LocalHost" ≠ None.
Proof.
  apply (reserved_name_any_case "LocalHost"). vm_compute.
  repeat (first [apply list_elem_of_here | apply list_elem_of_further]).
Defined.

End MiddlewareProps.

Module CreateRouteProps.
Import Manager Props MoreProps ManagerFacts.
Import CreateRoute.

Section Handler.
Variable sanitizeInput : string → string.
Variable validateSiteName : string → option string.

(** X19.  Without a generated structure nothing is registered: when the
    generator fails, whatever else the request holds, the manager state
    after the request is the state before it. *)
Theorem no_structure_no_record (securityPassed : bool) (method : Method)
    (body_name body_prompt : option string) (x : Exn)
    (uuid : string) (now : Z) (materialize : option Exn)
    (build : ExecResult) (startTime builtAt endTime : Z) (m : State) :
  (handler sanitizeInput validateSiteName securityPassed method
     body_name body_prompt (inl x) uuid now materialize build
     startTime builtAt endTime m).2 = m.
Proof.
  unfold handler. destruct securityPassed; simpl; [|reflexivity].
  destruct method; try reflexivity.
  destruct (strTruthy body_prompt); simpl; [|reflexivity].
  repeat match goal with
         | |- context [match ?t with _ => _ end] =>
             lazymatch t with
             | context [match _ with _ => _ end] => fail
             | _ => destruct t
             end
         end; reflexivity.
Qed.

(** X20.  A supplied name that sanitizes to the empty string is dropped
    silently: the request is handled exactly as one without a name (no
    validation, no duplicate check, the structure's name is used). *)
Theorem name_sanitized_away (supplied : string)
    (securityPassed : bool) (method : Method) (body_prompt : option string)
    (generated : Exn + Structure) (uuid : string) (now : Z)
    (materialize : option Exn) (build : ExecResult)
    (startTime builtAt endTime : Z) (m : State) :
  sanitizeInput supplied = "" →
  handler sanitizeInput validateSiteName securityPassed method
    (Some supplied) body_prompt generated uuid now materialize build
    startTime builtAt endTime m =
  handler sanitizeInput validateSiteName securityPassed method
    None body_prompt generated uuid now materialize build
    startTime builtAt endTime m.
Proof.
  intros Hempty. unfold handler.
  destruct securityPassed; simpl; [|reflexivity].
  destruct method; try reflexivity.
  destruct (strTruthy body_prompt); simpl; [|reflexivity].
  destruct (bool_decide (supplied ≠ "")); simpl; [|reflexivity].
  rewrite Hempty. simpl. reflexivity.
Qed.

(** A name the validator refuses stops the request with 400 and the
    validator's message before anything is generated or stored. *)
Theorem invalid_name_is_refused (supplied prompt error : string)
    (generated : Exn + Structure) (uuid : string) (now : Z)
    (materialize : option Exn) (build : ExecResult)
    (startTime builtAt endTime : Z) (m : State) :
  supplied ≠ "" → prompt ≠ "" →
  sanitizeInput supplied ≠ "" →
  validateSiteName (sanitizeInput supplied) = Some error →
  handler sanitizeInput validateSiteName true POST
    (Some supplied) (Some prompt) generated uuid now materialize build
    startTime builtAt endTime m = (Some (InvalidName error), m).
Proof.
  intros Hsup Hprompt Hsan Hinvalid. unfold handler. simpl.
  rewrite !bool_decide_eq_true_2 by assumption. simpl.
  rewrite bool_decide_eq_true_2 by assumption. simpl.
  by rewrite Hinvalid.
Qed.

(** X21.  A failed first build does not fail the creation: when the files
    are written but the build command is rejected, the answer is still 201,
    carrying a build result with [success = false]; the new site is
    registered with status ['error']. *)
Theorem created_despite_build_failure (prompt : string)
    (structure : Structure) (uuid : string) (now : Z) (e : ExecError)
    (startTime builtAt endTime : Z) (m : State) :
  prompt ≠ "" →
  ∃ site buildResult m',
    handler sanitizeInput validateSiteName true POST None (Some prompt)
      (inr structure) uuid now None (ExecRejected e)
      startTime builtAt endTime m =
      (Some (Created site buildResult), m') ∧
    http_status (Created site buildResult) = 201 ∧
    success buildResult = false ∧
    siteId site = uuid ∧ status site = Failed ∧
    sites m' !! uuid = Some site.
Proof.
  intros Hprompt. unfold handler. simpl.
  rewrite bool_decide_eq_true_2 by assumption. simpl.
  unfold createSite, buildSite, getOrThrow, sitesSet, emit, execAsync.
  msimpl. simpl. rewrite lookup_insert_eq. simpl.
  rewrite !lookup_insert_eq. simpl.
  eexists _, _, _. split; [reflexivity|]. simpl.
  rewrite lookup_insert_eq. done.
Qed.

End Handler.

Lemma name_sanitized_away_witness :
  handler (λ _, "") (λ _, None) true POST (Some "<script></script>")
    (Some "a blog") (inr (Scenario.structureNamed "gamma")) "id-c" 3 None
    Scenario.ok 4 5 6 Scenario.fleet =
  handler (λ _, "") (λ _, None) true POST None
    (Some "a blog") (inr (Scenario.structureNamed "gamma")) "id-c" 3 None
    Scenario.ok 4 5 6 Scenario.fleet.
Proof.
  apply (name_sanitized_away (λ _, "") (λ _, None) "<script></script>").
  reflexivity.
Defined.

Lemma invalid_name_is_refused_witness :
  handler (λ s, s) Middleware.validateSiteName true POST (Some "admin")
    (Some "a blog") (inr (Scenario.structureNamed "gamma")) "id-c" 3 None
    Scenario.ok 4 5 6 Scenario.fleet =
  (Some (InvalidName "Site name is reserved"), Scenario.fleet).
Proof.
  apply (invalid_name_is_refused (λ s, s) Middleware.validateSiteName
           "admin" "a blog" "Site name is reserved").
  - discriminate.
  - discriminate.
  - discriminate.
  - vm_compute. reflexivity.
Defined.

Lemma created_despite_build_failure_witness :
  ∃ site buildResult m',
    handler (λ s, s) Middleware.validateSiteName true POST None
      (Some "a blog") (inr (Scenario.structureNamed "gamma")) "id-c" 3 None
      (ExecRejected (mkExecError None (Some "boom") "exit 1")) 4 5 6
      Scenario.fleet = (Some (Created site buildResult), m') ∧
    status site = Failed.
Proof.
  destruct (created_despite_build_failure (λ s, s)
              Middleware.validateSiteName "a blog"
              (Scenario.structureNamed "gamma") "id-c" 3
              (mkExecError None (Some "boom") "exit 1") 4 5 6 Scenario.fleet)
    as (site & br & m' & Hrun & _ & _ & _ & Hst & _); [discriminate|].
  exists site, br, m'. split; assumption.
Defined.

End CreateRouteProps.

Module BuildRouteProps.
Import Manager Props MoreProps ManagerFacts.
Import BuildRoute.

(** X22.  The build route reports the build as it went: for a registered
    site that is not already building, the reply carries exactly the result
    [buildSite] returns (on success the command's output and no error, on
    failure the captured output and error text, with the elapsed time), its
    HTTP status is 200 on success and 400 on failure, and the status and
    [lastBuilt] it reports are those now in the registry: ['ready'] with
    the new build time after a success, ['error'] with the former
    [lastBuilt] after a failure. *)
Theorem build_route_reports_outcome (m : State) (id : string)
    (site : JekyllSite) (r : ExecResult) (startTime builtAt endTime : Z) :
  id ≠ "" →
  sites m !! id = Some site →
  status site ≠ Building →
  let buildResult :=
    match r with
    | ExecOk out _ => mkBuildResult true out None (endTime - startTime)
    | ExecRejected e =>
        mkBuildResult false (strOr (e_stdout e) "")
          (Some (strOr (e_stderr e) (e_message e))) (endTime - startTime)
    end in
  let site' :=
    match r with
    | ExecOk _ _ => set_lastBuilt (Some builtAt) (set_status Ready site)
    | ExecRejected _ => set_status Failed site
    end in
  let response :=
    BuildReport buildResult (siteId site) (name site)
                (status site') (lastBuilt site') in
  ∃ m',
    handler true POST (Some id) r startTime builtAt endTime m =
      (Some response, m') ∧
    http_status response =
      (match r with ExecOk _ _ => 200 | ExecRejected _ => 400 end) ∧
    sites m' = <[id := site']> (sites m).
Proof.
  intros Hid Hsite Hst. unfold handler, getSite. simpl.
  rewrite decide_False by assumption. rewrite Hsite.
  rewrite decide_False by assumption.
  unfold buildSite, getOrThrow, sitesSet, emit, execAsync. msimpl.
  rewrite Hsite. simpl.
  destruct r as [out err|e]; simpl; rewrite !lookup_insert_eq; simpl;
    eexists; (split; [reflexivity|]); simpl;
    by rewrite !insert_insert_eq.
Qed.

Lemma build_route_reports_outcome_witness :
  ∃ m',
    handler true POST (Some "id-a")
      (ExecRejected (mkExecError None (Some "boom") "exit 1")) 10 11 12
      Scenario.fleet =
      (Some (BuildReport (mkBuildResult false "" (Some "boom") 2)
                         "id-a" "alpha" Failed None), m').
Proof.
  destruct (build_route_reports_outcome Scenario.fleet "id-a"
              (mkSite "id-a" "alpha" "/app/projects/alpha" Ready None 1 None)
              (ExecRejected (mkExecError None (Some "boom") "exit 1"))
              10 11 12)
    as (m' & Hrun & _);
    [discriminate | vm_compute; reflexivity | discriminate |].
  exists m'. exact Hrun.
Defined.

(** X23.  Building a serving site takes it out of ['serving'] without
    stopping anything: the build route accepts the request, the only command
    run is the build, and afterwards the site is ['ready'] or ['error']
    while its record still holds the port it was serving on. *)
Theorem build_while_serving_keeps_port (m : State) (id : string)
    (site : JekyllSite) (p : Z) (r : ExecResult)
    (startTime builtAt endTime : Z) :
  id ≠ "" →
  sites m !! id = Some site →
  status site = Serving →
  port site = Some p →
  ∃ s',
    sites (handler true POST (Some id) r startTime builtAt endTime m).2 !! id
      = Some s' ∧
    status s' ≠ Serving ∧
    port s' = Some p ∧
    executed (handler true POST (Some id) r startTime builtAt endTime m).2
      = executed m ++ [DockerBuild (name site)].
Proof.
  intros Hid Hsite Hst Hport. unfold handler, getSite. simpl.
  rewrite decide_False by assumption. rewrite Hsite.
  rewrite decide_False by (rewrite Hst; discriminate).
  unfold buildSite, getOrThrow, sitesSet, emit, execAsync. msimpl.
  rewrite Hsite. simpl.
  destruct r as [out err|e]; simpl; rewrite !lookup_insert_eq; simpl;
    eexists; (split; [reflexivity|]); simpl; done.
Qed.

Lemma build_while_serving_keeps_port_witness :
  ∃ s',
    sites (handler true POST (Some "id-a") Scenario.ok 10 11 12
             Scenario.alphaServing).2 !! "id-a" = Some s' ∧
    status s' ≠ Serving ∧ port s' = Some 4000%Z.
Proof.
  destruct (build_while_serving_keeps_port Scenario.alphaServing "id-a"
              (mkSite "id-a" "alpha" "/app/projects/alpha" Serving
                      (Some 4000%Z) 1 None) 4000 Scenario.ok 10 11 12)
    as (s' & Hs & Hst & Hp & _);
    [discriminate | vm_compute; reflexivity | reflexivity | reflexivity |].
  exists s'. repeat split; assumption.
Defined.

End BuildRouteProps.

Module SiteRouteProps.
Import Manager Props MoreProps ManagerFacts.
Import SiteRoute.

(** X24.  The delete route removes a registered site whatever the stop
    command answers: when the directory is removed the answer is 200 and the
    record is gone.  The stop command is run once when the site was serving
    and the stop succeeds, twice when it was serving and the first stop
    fails (the handler's attempt, then [deleteSite]'s own), and not at all
    otherwise. *)
Theorem delete_route_removes (m : State) (id : string) (site : JekyllSite)
    (stop1 stop2 : ExecResult) :
  id ≠ "" →
  sites m !! id = Some site →
  ∃ m',
    handleDelete true (Some id) stop1 stop2 None m =
      (Some (Deleted (siteId site) (name site)), m') ∧
    sites m' = delete id (sites m) ∧
    executed m' = executed m ++
      (if decide (status site = Serving)
       then match stop1 with
            | ExecOk _ _ => [DockerDown]
            | ExecRejected _ => [DockerDown; DockerDown]
            end
       else []).
Proof.
  intros Hid Hsite. unfold handleDelete, getSite. simpl.
  rewrite decide_False by assumption. rewrite Hsite.
  unfold deleteSite, stopSite, getOrThrow, sitesSet, emit, execAsync. msimpl.
  destruct (decide (status site = Serving)) as [Hserving|Hnot]; simpl.
  - rewrite Hsite. simpl. destruct stop1 as [out err|e]; simpl.
    + rewrite !lookup_insert_eq. simpl.
      eexists. split; [reflexivity|]. simpl.
      split; [by rewrite delete_insert_eq|reflexivity].
    + rewrite Hsite. simpl. rewrite decide_True by assumption. simpl.
      rewrite Hsite. simpl. destruct stop2 as [out err|e2]; simpl.
      * rewrite !lookup_insert_eq. simpl.
        eexists. split; [reflexivity|]. simpl.
        split; [by rewrite delete_insert_eq|by rewrite <- app_assoc].
      * rewrite Hsite. simpl.
        eexists. split; [reflexivity|]. simpl.
        split; [reflexivity|by rewrite <- app_assoc].
  - rewrite Hsite. simpl. rewrite decide_False by assumption. simpl.
    rewrite Hsite. simpl.
    eexists. split; [reflexivity|]. simpl.
    split; [reflexivity|by rewrite app_nil_r].
Qed.

Lemma delete_route_removes_witness :
  ∃ m',
    handleDelete true (Some "id-a")
      (ExecRejected (mkExecError None None "no daemon"))
      (ExecRejected (mkExecError None None "no daemon")) None
      Scenario.alphaServing = (Some (Deleted "id-a" "alpha"), m') ∧
    sites m' !! "id-a" = None.
Proof.
  destruct (delete_route_removes Scenario.alphaServing "id-a"
              (mkSite "id-a" "alpha" "/app/projects/alpha" Serving
                      (Some 4000%Z) 1 None)
              (ExecRejected (mkExecError None None "no daemon"))
              (ExecRejected (mkExecError None None "no daemon")))
    as (m' & Hrun & Hsites & _); [discriminate | vm_compute; reflexivity |].
  exists m'. split; [exact Hrun|]. rewrite Hsites. apply lookup_delete_eq.
Defined.

End SiteRouteProps.

Module ConnectionProps.
Import WS WSFacts MoreWSProps.
Import Manager (Event, fileChanged, JekyllSite).

Lemma sendToClient_readyState now message ws :
  readyState (sendToClient now message ws) = readyState ws.
Proof. unfold sendToClient. by destruct (decide (readyState ws = OPEN)). Qed.

Lemma sendToClient_id now message ws :
  id (sendToClient now message ws) = id ws.
Proof. unfold sendToClient. by destruct (decide (readyState ws = OPEN)). Qed.

Lemma sendToClient_closed now message ws :
  readyState ws ≠ OPEN → sendToClient now message ws = ws.
Proof. intros Hno. unfold sendToClient. by rewrite decide_False. Qed.

Lemma sendToClient_open now message ws :
  readyState ws = OPEN →
  sendToClient now message ws = send (stamped now message) ws.
Proof. intros Hopen. unfold sendToClient. by rewrite decide_True. Qed.

Lemma sendToClient_stamped now message ws :
  allStamped ws → allStamped (sendToClient now message ws).
Proof.
  intros Hall. unfold sendToClient, allStamped.
  destruct (decide (readyState ws = OPEN)); [|assumption].
  simpl. apply Forall_app. split; [assumption|]. repeat constructor. by eexists.
Qed.

Lemma handleMessage_readyState now all parsed ws :
  readyState (handleMessage now all parsed ws) = readyState ws.
Proof.
  unfold handleMessage. destruct parsed as [d|];
    [|by rewrite sendToClient_readyState].
  destruct (decide (c_type d = "ping")); [by rewrite sendToClient_readyState|].
  destruct (decide (c_type d = "subscribe")).
  { destruct (c_siteId d) as [sid|]; [|reflexivity].
    destruct (decide (sid = "")); [reflexivity|].
    by rewrite sendToClient_readyState. }
  destruct (decide (c_type d = "unsubscribe")).
  { destruct (c_siteId d) as [sid|]; [|reflexivity].
    destruct (decide (sid = "")); [reflexivity|].
    by rewrite sendToClient_readyState. }
  destruct (decide (c_type d = "getSites"));
    by rewrite sendToClient_readyState.
Qed.

Lemma handleMessage_id now all parsed ws :
  id (handleMessage now all parsed ws) = id ws.
Proof.
  unfold handleMessage. destruct parsed as [d|];
    [|by rewrite sendToClient_id].
  destruct (decide (c_type d = "ping")); [by rewrite sendToClient_id|].
  destruct (decide (c_type d = "subscribe")).
  { destruct (c_siteId d) as [sid|]; [|reflexivity].
    destruct (decide (sid = "")); [reflexivity|].
    by rewrite sendToClient_id. }
  destruct (decide (c_type d = "unsubscribe")).
  { destruct (c_siteId d) as [sid|]; [|reflexivity].
    destruct (decide (sid = "")); [reflexivity|].
    by rewrite sendToClient_id. }
  destruct (decide (c_type d = "getSites")); by rewrite sendToClient_id.
Qed.

Lemma handleMessage_stamped now all parsed ws :
  allStamped ws → allStamped (handleMessage now all parsed ws).
Proof.
  intros Hall. unfold handleMessage. destruct parsed as [d|];
    [|by apply sendToClient_stamped].
  destruct (decide (c_type d = "ping")); [by apply sendToClient_stamped|].
  destruct (decide (c_type d = "subscribe")).
  { destruct (c_siteId d) as [sid|]; [|assumption].
    destruct (decide (sid = "")); [assumption|].
    by apply sendToClient_stamped. }
  destruct (decide (c_type d = "unsubscribe")).
  { destruct (c_siteId d) as [sid|]; [|assumption].
    destruct (decide (sid = "")); [assumption|].
    by apply sendToClient_stamped. }
  destruct (decide (c_type d = "getSites")); by apply sendToClient_stamped.
Qed.

Lemma handleMessage_closed now all parsed ws :
  readyState ws ≠ OPEN → sent (handleMessage now all parsed ws) = sent ws.
Proof.
  intros Hno. unfold handleMessage. destruct parsed as [d|];
    [|by rewrite sendToClient_closed].
  destruct (decide (c_type d = "ping")); [by rewrite sendToClient_closed|].
  destruct (decide (c_type d = "subscribe")).
  { destruct (c_siteId d) as [sid|]; [|reflexivity].
    destruct (decide (sid = "")); [reflexivity|].
    by rewrite sendToClient_closed. }
  destruct (decide (c_type d = "unsubscribe")).
  { destruct (c_siteId d) as [sid|]; [|reflexivity].
    destruct (decide (sid = "")); [reflexivity|].
    by rewrite sendToClient_closed. }
  destruct (decide (c_type d = "getSites")); by rewrite sendToClient_closed.
Qed.

(** X25.  Subscriptions switch file-change delivery on and off: for a live
    connection, once it has sent [subscribe] for a site the next
    ['fileChanged'] of that site is delivered to it; once it has then sent
    [unsubscribe], the next one is not. *)
Theorem subscription_controls_delivery (s : Sockets) (c : nat)
    (ws : ExtendedWebSocket) (sid filePath : string) (all : list JekyllSite)
    (t1 t2 t3 : Z) :
  s !! c = Some ws →
  inClients ws = true →
  readyState ws = OPEN →
  sid ≠ "" →
  let subscribed :=
    step (Message c t1 all (Some (mkClientMessage "subscribe" (Some sid)))) s in
  let unsubscribed :=
    step (Message c t2 all (Some (mkClientMessage "unsubscribe" (Some sid))))
         subscribed in
  eventsReceived c (step (Published t3 (fileChanged sid filePath)) subscribed)
    = eventsReceived c s ++
        [mkMessage "fileChanged" (FileChangedData sid filePath) (Some sid)
                   (Some t3)] ∧
  eventsReceived c (step (Published t3 (fileChanged sid filePath)) unsubscribed)
    = eventsReceived c s.
Proof.
  intros Hc Hin Hopen Hsid subscribed unsubscribed.
  set (sub := handleMessage t1 all
                (Some (mkClientMessage "subscribe" (Some sid))) ws).
  set (unsub := handleMessage t2 all
                  (Some (mkClientMessage "unsubscribe" (Some sid))) sub).
  assert (Hsub : subscribed !! c = Some sub).
  { unfold subscribed. rewrite (step_lookup _ s c ws Hc). simpl.
    by rewrite decide_True. }
  assert (Hunsub : unsubscribed !! c = Some unsub).
  { unfold unsubscribed. rewrite (step_lookup _ subscribed c sub Hsub). simpl.
    by rewrite decide_True. }
  assert (Hsubs : subscribedSites sub = {[sid]} ∪ subscribedSites ws ∧
                  readyState sub = OPEN ∧ inClients sub = true ∧
                  eventsOf sub = eventsOf ws).
  { unfold sub. rewrite handleMessage_readyState, handleMessage_inClients,
      handleMessage_events. repeat split; try assumption.
    unfold handleMessage. simpl. rewrite decide_False by assumption.
    unfold sendToClient. simpl. by rewrite decide_True. }
  destruct Hsubs as (Hset & Hopen' & Hin' & Hev').
  assert (Hunsubs : subscribedSites unsub = subscribedSites sub ∖ {[sid]} ∧
                    readyState unsub = OPEN ∧ inClients unsub = true ∧
                    eventsOf unsub = eventsOf ws).
  { unfold unsub. rewrite handleMessage_readyState, handleMessage_inClients,
      handleMessage_events. repeat split; try assumption.
    unfold handleMessage. simpl. rewrite decide_False by assumption.
    unfold sendToClient. simpl. by rewrite decide_True. }
  destruct Hunsubs as (Hset2 & Hopen2 & Hin2 & Hev2).
  unfold eventsReceived. split.
  - rewrite (step_lookup _ subscribed c sub Hsub), Hc. simpl.
    unfold onClient. rewrite Hin'.
    rewrite bool_decide_eq_true_2
      by (rewrite Hset; apply elem_of_union_l; by apply elem_of_singleton).
    rewrite sendToClient_open by assumption.
    unfold eventsOf, send. simpl. rewrite filter_app. fold (eventsOf sub).
    by rewrite Hev'.
  - rewrite (step_lookup _ unsubscribed c unsub Hunsub), Hc. simpl.
    unfold onClient. rewrite Hin2.
    rewrite bool_decide_eq_false_2
      by (rewrite Hset2, elem_of_difference, elem_of_singleton;
          intros [_ Hne]; by apply Hne).
    assumption.
Qed.

Lemma subscription_controls_delivery_witness :
  eventsReceived 0
    (step (Published 9 (fileChanged "id-b" "index.md"))
       (step (Message 0 8 [] (Some (mkClientMessage "subscribe"
                                                    (Some "id-b"))))
             Scenario.subscribed))
  = [mkMessage "fileChanged" (FileChangedData "id-b" "index.md")
               (Some "id-b") (Some 9%Z)].
Proof.
  destruct (subscription_controls_delivery Scenario.subscribed 0
              (mkSocket "client_1" true {["id-a"]} OPEN true
                 [mkMessage "connected" (ConnectedData "client_1" 1) None
                            (Some 1%Z);
                  mkMessage "sites" (SitesData []) None (Some 1%Z);
                  mkMessage "subscribed" (SiteIdData "id-a") None
                            (Some 2%Z)] 0)
              "id-b" "index.md" [] 8 8 9) as [Hon _];
    [vm_compute; reflexivity | reflexivity | reflexivity | discriminate |].
  rewrite Hon. vm_compute. reflexivity.
Defined.

(** A client frame concerns its sender only: whatever the frame holds,
    parsable or not, every other socket is exactly as before, and the
    sender stays connected: its membership of [this.clients], its liveness
    flag and its ready state are unchanged. *)
Theorem frame_concerns_sender_only (s : Sockets) (c : nat) (now : Z)
    (all : list JekyllSite) (parsed : option ClientMessage) :
  let s' := step (Message c now all parsed) s in
  length s' = length s ∧
  (∀ c', c' ≠ c → s' !! c' = s !! c') ∧
  (∀ ws, s !! c = Some ws →
     ∃ ws', s' !! c = Some ws' ∧
            inClients ws' = inClients ws ∧ isAlive ws' = isAlive ws ∧
            readyState ws' = readyState ws ∧ id ws' = id ws).
Proof.
  intros s'. unfold s'. simpl. split; [apply length_alter|]. split.
  - intros c' Hne. by apply list_lookup_alter_ne.
  - intros ws Hc. eexists. rewrite list_lookup_alter_eq, Hc. simpl.
    split; [reflexivity|].
    by rewrite handleMessage_inClients, handleMessage_isAlive,
               handleMessage_readyState, handleMessage_id.
Qed.

(** X26.  Every client frame sent to an open socket is answered by exactly
    one message, stamped and not an event, except a [subscribe] or
    [unsubscribe] that names no site, which is ignored without any answer.
    A frame that cannot be parsed is answered too. *)
Theorem frame_is_answered_once (now : Z) (all : list JekyllSite)
    (parsed : option ClientMessage) (ws : ExtendedWebSocket) :
  readyState ws = OPEN →
  (namesNoSite parsed → handleMessage now all parsed ws = ws) ∧
  (¬ namesNoSite parsed →
     ∃ reply, sent (handleMessage now all parsed ws) = sent ws ++ [reply] ∧
              timestamp reply = Some now ∧ isEventMessage reply = false).
Proof.
  intros Hopen. split.
  - intros (d & -> & Htype & Hsite). unfold handleMessage.
    destruct Htype as [Htype|Htype]; rewrite Htype; simpl;
      destruct Hsite as [->| ->]; reflexivity.
  - intros Hnot. unfold handleMessage.
    destruct parsed as [d|];
      [|rewrite sendToClient_open by assumption; by eexists].
    destruct (decide (c_type d = "ping"));
      [rewrite sendToClient_open by assumption; by eexists|].
    destruct (decide (c_type d = "subscribe")) as [Hsub|].
    { destruct (c_siteId d) as [sid|] eqn:Hsid;
        [|exfalso; apply Hnot; exists d; auto].
      destruct (decide (sid = "")) as [->|];
        [exfalso; apply Hnot; exists d; auto|].
      rewrite sendToClient_open by assumption. by eexists. }
    destruct (decide (c_type d = "unsubscribe")) as [Hunsub|].
    { destruct (c_siteId d) as [sid|] eqn:Hsid;
        [|exfalso; apply Hnot; exists d; auto].
      destruct (decide (sid = "")) as [->|];
        [exfalso; apply Hnot; exists d; auto|].
      rewrite sendToClient_open by assumption. by eexists. }
    destruct (decide (c_type d = "getSites"));
      rewrite sendToClient_open by assumption; by eexists.
Qed.

Lemma frame_is_answered_once_witness :
  handleMessage 5 [] (Some (mkClientMessage "subscribe" None))
    (mkSocket "client_1" true ∅ OPEN true [] 0)
  = mkSocket "client_1" true ∅ OPEN true [] 0.
Proof.
  destruct (frame_is_answered_once 5 []
              (Some (mkClientMessage "subscribe" None))
              (mkSocket "client_1" true ∅ OPEN true [] 0)) as [Hig _];
    [reflexivity|].
  apply Hig. eexists. split; [reflexivity|]. auto.
Defined.

(** *** Invariants of the sockets *)

Lemma stepSocket_stamped a c ws :
  allStamped ws → allStamped (stepSocket a c ws).
Proof.
  intros Hall.
  destruct a as [now cid all|c' now all parsed|c'|c'|c'|now ev|]; simpl.
  - assumption.
  - destruct (decide (c' = c)); [by apply handleMessage_stamped|assumption].
  - by destruct (decide (c' = c)).
  - by destruct (decide (c' = c)).
  - by destruct (decide (c' = c)).
  - unfold onClient. destruct (inClients ws); [|assumption].
    match goal with |- context [if ?b then _ else _] => destruct b end;
      [by apply sendToClient_stamped|assumption].
  - unfold onClient, ping, terminate. destruct (inClients ws); [|assumption].
    destruct (negb (isAlive ws)); simpl.
    + by destruct (decide (readyState ws = CLOSED)).
    + by destruct (decide (readyState ws = OPEN)).
Qed.

Lemma step_stamped a s :
  Forall allStamped s → Forall allStamped (step a s).
Proof.
  intros Hall. rewrite Forall_lookup in Hall. apply Forall_lookup.
  intros c ws' Hc'.
  destruct (s !! c) as [ws|] eqn:Hc.
  - rewrite (step_lookup a s c ws Hc) in Hc'. injection Hc' as <-.
    apply stepSocket_stamped. by eapply Hall.
  - apply lookup_ge_None in Hc.
    destruct a as [now cid all|c' now all parsed|c'|c'|c'|now ev|];
      simpl in Hc'.
    + unfold handleConnection in Hc'.
      rewrite lookup_app_r in Hc' by assumption.
      destruct (c - length s) as [|k]; [|by destruct k].
      injection Hc' as <-. repeat apply sendToClient_stamped. constructor.
    + apply lookup_lt_Some in Hc'. rewrite length_alter in Hc'. lia.
    + apply lookup_lt_Some in Hc'. rewrite length_alter in Hc'. lia.
    + apply lookup_lt_Some in Hc'. rewrite length_alter in Hc'. lia.
    + apply lookup_lt_Some in Hc'. rewrite length_alter in Hc'. lia.
    + rewrite onManagerEvent_fmap in Hc'.
      apply lookup_lt_Some in Hc'. rewrite length_fmap in Hc'. lia.
    + unfold heartbeat, forEachClient in Hc'.
      apply lookup_lt_Some in Hc'. rewrite length_fmap in Hc'. lia.
Qed.

Lemma run_stamped acts :
  ∀ s, Forall allStamped s → Forall allStamped (run acts s).
Proof.
  induction acts as [|a acts IH]; intros s Hs; [assumption|].
  simpl. apply IH. by apply step_stamped.
Qed.

(** X27.  Every outbound message is stamped: whatever happens from the
    start of the server on (connections, frames, pongs, closes, errors,
    published events, heartbeat ticks), each message written to any socket
    carries a send time. *)
Theorem every_message_is_stamped (acts : list Action) (c : nat)
    (ws : ExtendedWebSocket) (message : WebSocketMessage) :
  run acts [] !! c = Some ws →
  message ∈ sent ws →
  is_Some (timestamp message).
Proof.
  assert (Hall : Forall allStamped (run acts []))
    by (apply run_stamped; constructor).
  intros Hc Hin. rewrite Forall_lookup in Hall.
  specialize (Hall c ws Hc). unfold allStamped in Hall.
  rewrite Forall_forall in Hall. by apply Hall.
Qed.

Lemma every_message_is_stamped_witness :
  is_Some (timestamp (mkMessage "subscribed" (SiteIdData "id-a") None
                                (Some 2%Z))).
Proof.
  apply (every_message_is_stamped
           [Connection 1 "client_1" [];
            Message 0 2 [] (Some (mkClientMessage "subscribe" (Some "id-a")))]
           0
           (mkSocket "client_1" true {["id-a"]} OPEN true
              [mkMessage "connected" (ConnectedData "client_1" 1) None
                         (Some 1%Z);
               mkMessage "sites" (SitesData []) None (Some 1%Z);
               mkMessage "subscribed" (SiteIdData "id-a") None
                         (Some 2%Z)] 0)).
  - vm_compute. reflexivity.
  - simpl. repeat (first [apply list_elem_of_here | apply list_elem_of_further]).
Defined.

Lemma stepSocket_frozen a c ws :
  readyState ws ≠ OPEN →
  readyState (stepSocket a c ws) ≠ OPEN ∧ sent (stepSocket a c ws) = sent ws.
Proof.
  intros Hno.
  destruct a as [now cid all|c' now all parsed|c'|c'|c'|now ev|]; simpl.
  - done.
  - destruct (decide (c' = c)); [|done].
    by rewrite handleMessage_readyState, handleMessage_closed.
  - by destruct (decide (c' = c)).
  - by destruct (decide (c' = c)).
  - by destruct (decide (c' = c)).
  - unfold onClient. destruct (inClients ws); [|done].
    match goal with |- context [if ?b then _ else _] => destruct b end;
      [by rewrite sendToClient_closed|done].
  - unfold onClient, ping, terminate. destruct (inClients ws); [|done].
    destruct (negb (isAlive ws)); simpl.
    + by destruct (decide (readyState ws = CLOSED)).
    + by rewrite decide_False.
Qed.

(** X28.  A socket that is no longer open is never written to again and
    never re-opens: whatever follows, what has been sent on it is what had
    been sent when it stopped being open. *)
Theorem closed_socket_is_frozen (s : Sockets) (c : nat)
    (ws : ExtendedWebSocket) (acts : list Action) :
  s !! c = Some ws →
  readyState ws ≠ OPEN →
  ∃ ws', run acts s !! c = Some ws' ∧
         readyState ws' ≠ OPEN ∧ sent ws' = sent ws.
Proof.
  intros Hc Hno. exists (runSocket acts c ws).
  split; [by apply run_lookup|].
  clear Hc. revert ws Hno.
  induction acts as [|a acts IH]; intros ws Hno; [done|].
  simpl. destruct (stepSocket_frozen a c ws Hno) as [Hno' Hsent].
  destruct (IH _ Hno') as [Hno'' Hsent']. split; [assumption|congruence].
Qed.

Lemma closed_socket_is_frozen_witness :
  ∃ ws', run [Published 9 (fileChanged "id-a" "index.md")]
             (step (Close 0) Scenario.subscribed) !! 0 = Some ws' ∧
         length (sent ws') = 3.
Proof.
  destruct (closed_socket_is_frozen (step (Close 0) Scenario.subscribed) 0
              (mkSocket "client_1" true {["id-a"]} CLOSED false
                 [mkMessage "connected" (ConnectedData "client_1" 1) None
                            (Some 1%Z);
                  mkMessage "sites" (SitesData []) None (Some 1%Z);
                  mkMessage "subscribed" (SiteIdData "id-a") None
                            (Some 2%Z)] 0)
              [Published 9 (fileChanged "id-a" "index.md")])
    as (ws' & Hrun & _ & Hsent); [vm_compute; reflexivity | discriminate |].
  exists ws'. split; [exact Hrun|]. by rewrite Hsent.
Defined.

End ConnectionProps.

Module StatsProps.
Import WS WSFacts MoreWSProps WSStats.

Section PlainObject.
Variable inheritedText : string → option string.

Lemma countSubscription_lookup (x sid : string)
    (obj : gmap string StatValue) :
  countSubscription inheritedText x obj !! sid =
    if decide (x = sid) then counted inheritedText sid (obj !! sid)
    else obj !! sid.
Proof.
  unfold countSubscription, counted.
  destruct (decide (x = sid)) as [->|Hne].
  - destruct (decide (sid = "__proto__")); [reflexivity|].
    apply lookup_insert_eq.
  - destruct (decide (x = "__proto__")); [reflexivity|].
    by apply lookup_insert_ne.
Qed.

Lemma countSubscription_fold (sid : string) (acc : gmap string StatValue)
    (X : gset string) :
  set_fold (countSubscription inheritedText) acc X !! sid =
    if decide (sid ∈ X) then counted inheritedText sid (acc !! sid)
    else acc !! sid.
Proof.
  assert (Hboth :
    (sid ∈ X → set_fold (countSubscription inheritedText) acc X !! sid
               = counted inheritedText sid (acc !! sid)) ∧
    (sid ∉ X → set_fold (countSubscription inheritedText) acc X !! sid
               = acc !! sid)).
  { apply (set_fold_ind_L
             (λ r Y, (sid ∈ Y → r !! sid
                                = counted inheritedText sid (acc !! sid)) ∧
                     (sid ∉ Y → r !! sid = acc !! sid))).
    - split; [intros Hin; by apply not_elem_of_empty in Hin|reflexivity].
    - intros x Y r Hx [IHin IHout]. rewrite countSubscription_lookup.
      destruct (decide (x = sid)) as [->|Hne].
      + split.
        * intros _. by rewrite (IHout Hx).
        * intros Hout. exfalso. apply Hout, elem_of_union_l.
          by apply elem_of_singleton.
      + split.
        * intros Hin. apply IHin.
          apply elem_of_union in Hin as [Hin|Hin]; [|assumption].
          apply elem_of_singleton in Hin. congruence.
        * intros Hout. apply IHout. intros HY.
          by apply Hout, elem_of_union_r. }
  destruct Hboth as [Hin Hout].
  destruct (decide (sid ∈ X)); [by apply Hin|by apply Hout].
Qed.

Lemma count_clients (sid : string) (clients : list ExtendedWebSocket) :
  ∀ acc : gmap string StatValue,
    foldl (λ acc ws,
             set_fold (countSubscription inheritedText) acc
                      (subscribedSites ws))
          acc clients !! sid =
      Nat.iter (length (filter (λ ws, sid ∈ subscribedSites ws) clients))
               (counted inheritedText sid) (acc !! sid).
Proof.
  induction clients as [|ws clients IH]; intros acc.
  - reflexivity.
  - cbn [foldl]. rewrite IH, countSubscription_fold.
    destruct (decide (sid ∈ subscribedSites ws)) as [Hin|Hout].
    + rewrite filter_cons_True by assumption. cbn [length].
      by rewrite Nat.iter_succ_r.
    + by rewrite filter_cons_False by assumption.
Qed.

Lemma counted_plain (sid : string) (n : nat) :
  sid ≠ "__proto__" → inheritedText sid = None →
  Nat.iter n (counted inheritedText sid) None =
    if decide (n = 0) then None else Some (Count n).
Proof.
  intros Hproto Hplain. induction n as [|n IH]; [reflexivity|].
  simpl. rewrite IH. unfold counted, plusOne.
  rewrite decide_False by assumption.
  destruct (decide (n = 0)) as [->|Hn].
  - by rewrite Hplain.
  - f_equal. f_equal. lia.
Qed.

Lemma counted_proto (n : nat) (held : option StatValue) :
  Nat.iter n (counted inheritedText "__proto__") held = held.
Proof. induction n as [|n IH]; [reflexivity|]. simpl. by rewrite IH. Qed.

Lemma append_one_not_empty (t : string) : t +:+ "1" ≠ "".
Proof. by destruct t. Qed.

Lemma counted_inherited (sid t : string) (n : nat) :
  sid ≠ "__proto__" → inheritedText sid = Some t → n ≠ 0 →
  ∃ t', Nat.iter n (counted inheritedText sid) None = Some (Text t') ∧
        t' ≠ "".
Proof.
  intros Hproto Hinh Hn. destruct n as [|n]; [done|]. clear Hn.
  induction n as [|n IH].
  - simpl. unfold counted, plusOne. rewrite decide_False by assumption.
    rewrite Hinh. eexists. split; [reflexivity|apply append_one_not_empty].
  - destruct IH as (t' & Ht' & Hne).
    change (Nat.iter (S (S n)) (counted inheritedText sid) None)
      with (counted inheritedText sid
              (Nat.iter (S n) (counted inheritedText sid) None)).
    rewrite Ht'. unfold counted, plusOne.
    rewrite decide_False by assumption. rewrite decide_False by assumption.
    eexists. split; [reflexivity|apply append_one_not_empty].
Qed.

(** X29.  [getStats] counts what is in [this.clients]: [totalClients] is the
    number of sockets in the set, open or not.  In [clientsBySubscriptions]
    a site id that is not a property name of [Object.prototype] maps to the
    number of those sockets subscribed to it, and has no entry when nobody
    is.  The object being an object literal, an id that is such a name
    ('constructor', 'toString', ...) maps to a string, never to a count,
    and ['__proto__'] never gets an entry. *)
Theorem getStats_counts (s : Sockets) (sid : string) :
  (getStats inheritedText s).1 =
    length (filter (λ ws, inClients ws = true) s) ∧
  (sid ≠ "__proto__" → inheritedText sid = None →
     (getStats inheritedText s).2 !! sid =
       if decide (subscribers sid s = 0) then None
       else Some (Count (subscribers sid s))) ∧
  (sid ≠ "__proto__" → is_Some (inheritedText sid) →
     subscribers sid s ≠ 0 →
     ∃ t, (getStats inheritedText s).2 !! sid = Some (Text t)) ∧
  (getStats inheritedText s).2 !! "__proto__" = None.
Proof.
  split; [reflexivity|].
  unfold getStats, subscribers. simpl. rewrite !count_clients.
  rewrite !lookup_empty. split; [|split].
  - intros Hproto Hplain. by apply counted_plain.
  - intros Hproto [t Hinh] Hn.
    destruct (counted_inherited sid t _ Hproto Hinh Hn) as (t' & Ht' & _).
    by exists t'.
  - apply counted_proto.
Qed.

End PlainObject.

Lemma getStats_counts_witness :
  (getStats (λ name, if decide (name = "constructor")
                     then Some "function Object() { [native code] }"
                     else None) Scenario.subscribed).2 !! "id-a"
  = Some (Count 1).
Proof.
  destruct (getStats_counts
              (λ name, if decide (name = "constructor")
                       then Some "function Object() { [native code] }"
                       else None) Scenario.subscribed "id-a")
    as (_ & Hplain & _).
  rewrite Hplain; [|discriminate|reflexivity].
  vm_compute. reflexivity.
Defined.

End StatsProps.

Module SweepProps.
Import WS WSFacts MoreWSProps.

Lemma stepSocket_stays_member a c ws :
  a ≠ HeartbeatTick → a ≠ Close c → a ≠ SocketError c →
  inClients ws = true → inClients (stepSocket a c ws) = true.
Proof.
  intros Htick Hclose Herror Hin.
  destruct a as [now cid all|c' now all parsed|c'|c'|c'|now ev|]; simpl.
  - assumption.
  - destruct (decide (c' = c)); [by rewrite handleMessage_inClients|assumption].
  - by destruct (decide (c' = c)).
  - destruct (decide (c' = c)) as [->|]; [congruence|assumption].
  - destruct (decide (c' = c)) as [->|]; [congruence|assumption].
  - unfold onClient. rewrite Hin.
    match goal with |- context [if ?b then _ else _] => destruct b end;
      [by rewrite sendToClient_inClients|assumption].
  - congruence.
Qed.

Lemma runSocket_stays_member acts c :
  ∀ ws,
    Forall (λ a, a ≠ HeartbeatTick ∧ a ≠ Close c ∧ a ≠ SocketError c) acts →
    inClients ws = true → isAlive ws = true →
    inClients (runSocket acts c ws) = true ∧
    isAlive (runSocket acts c ws) = true.
Proof.
  induction acts as [|a acts IH]; intros ws Hquiet Hin Halive; [done|].
  apply Forall_cons in Hquiet as [(Htick & Hclose & Herror) Hquiet].
  simpl. apply IH; [assumption| |].
  - by apply stepSocket_stays_member.
  - by apply stepSocket_stays_alive.
Qed.

(** X30.  A new connection is given two ticks.  It is born confirmed, so
    unless it closes or errors it is still in [this.clients] after the first
    tick that follows its arrival, whether or not it answers anything; if no
    pong of it arrives before the next tick, that tick removes it. *)
Theorem new_connection_gets_two_ticks (s : Sockets) (now : Z)
    (clientId : string) (all : list Manager.JekyllSite)
    (quiet1 quiet2 : list Action) :
  let c := length s in
  Forall (λ a, a ≠ HeartbeatTick ∧ a ≠ Close c ∧ a ≠ SocketError c) quiet1 →
  Forall (λ a, a ≠ Pong c ∧ a ≠ HeartbeatTick) quiet2 →
  let first := heartbeat (run quiet1 (handleConnection now clientId all s)) in
  member c first ∧ ¬ member c (heartbeat (run quiet2 first)).
Proof.
  intros c Hquiet1 Hquiet2 first.
  set (ws0 := sendToClient now (mkMessage "sites" (SitesData all) None None)
                (sendToClient now
                   (mkMessage "connected" (ConnectedData clientId now)
                              None None)
                   (mkSocket clientId true ∅ OPEN true [] 0))).
  assert (Hc0 : handleConnection now clientId all s !! c = Some ws0).
  { unfold handleConnection. rewrite lookup_app_r by reflexivity.
    by rewrite Nat.sub_diag. }
  destruct (runSocket_stays_member quiet1 c ws0 Hquiet1 eq_refl eq_refl)
    as [Hin1 Halive1].
  pose proof (run_lookup quiet1 _ c ws0 Hc0) as Hc1.
  set (ws1 := runSocket quiet1 c ws0) in *.
  assert (Hfirst : first !! c = Some (ping (set_isAlive false ws1))).
  { unfold first, heartbeat, forEachClient.
    rewrite list_lookup_fmap, Hc1. simpl. unfold onClient.
    by rewrite Hin1, Halive1. }
  assert (Hin2 : inClients (ping (set_isAlive false ws1)) = true).
  { unfold ping. by destruct (decide _). }
  assert (Hdead2 : isAlive (ping (set_isAlive false ws1)) = false).
  { unfold ping. by destruct (decide _). }
  split; [by eexists|].
  pose proof (run_lookup quiet2 _ c _ Hfirst) as Hc2.
  pose proof (runSocket_stays_unconfirmed quiet2 c _ Hquiet2 Hdead2) as Hdead.
  intros (w & Hw & Hin).
  unfold heartbeat, forEachClient in Hw.
  rewrite list_lookup_fmap, Hc2 in Hw. simpl in Hw. injection Hw as <-.
  revert Hin. unfold onClient.
  destruct (inClients (runSocket quiet2 c _)) eqn:Hin3; [|congruence].
  rewrite Hdead. simpl. discriminate.
Qed.

Lemma new_connection_gets_two_ticks_witness :
  ¬ member 0 (heartbeat (run [] (heartbeat
                (run [] (handleConnection 1 "client_1" [] []))))).
Proof.
  destruct (new_connection_gets_two_ticks [] 1 "client_1" [] [] [])
    as [_ Hgone]; [constructor | constructor |].
  exact Hgone.
Defined.

End SweepProps.

Module OverlapProps.
Import Manager Props MoreProps ManagerFacts Overlap.

(** Run without interruption, the two halves are [serveSite]. *)
Lemma serveSite_is_start_then_settle (siteId : string) (port : option Z)
    (r : ExecResult) (m : State) :
  serveSite siteId port r m =
    (found ← serveSiteStart siteId port;
     serveSiteSettle siteId found.1 found.2 r) m.
Proof.
  unfold serveSite, serveSiteStart, serveSiteSettle, getOrThrow, sitesSet,
    emit, execAsync, setupFileWatcher, findAvailablePort.
  msimpl.
  destruct (sites m !! siteId) as [site|] eqn:Hsite; simpl; [|reflexivity].
  destruct (numTruthy port); simpl; rewrite Hsite; simpl;
    by destruct r.
Qed.

(** X3.  [serveSite] stores the port it has chosen only once its command has
    settled.  So when two Serve calls without a requested port, on two
    different registered sites, overlap (the second starts before the first
    has settled) and both previews start, both calls return the same port
    and both sites end ['serving'] on it. *)
Theorem overlapping_serves_share_port (m : State) (a b : string)
    (sa sb : JekyllSite) (requested_a requested_b : option Z)
    (out_a err_a out_b err_b : string) :
  a ≠ b →
  sites m !! a = Some sa →
  sites m !! b = Some sb →
  numTruthy requested_a = false →
  numTruthy requested_b = false →
  ∃ p m1 m2 m3 m4,
    serveSiteStart a requested_a m = (Returned (sa, p), m1) ∧
    serveSiteStart b requested_b m1 = (Returned (sb, p), m2) ∧
    serveSiteSettle a sa p (ExecOk out_a err_a) m2 = (Returned p, m3) ∧
    serveSiteSettle b sb p (ExecOk out_b err_b) m3 = (Returned p, m4) ∧
    sites m4 !! a = Some (set_port (Some p) (set_status Serving sa)) ∧
    sites m4 !! b = Some (set_port (Some p) (set_status Serving sb)) ∧
    ¬ servingPortsDistinct m4.
Proof.
  intros Hab Ha Hb Hfa Hfb.
  set (p := scanPorts (usedPorts m) (S (length (usedPorts m))) 4000).
  set (m1 := mkState (sites m) (projectsDir m) (watchers m)
               (onceSiteStopped m) (emitted m)
               (executed m ++ [DockerServe (name sa) p])).
  set (m2 := mkState (sites m) (projectsDir m) (watchers m)
               (onceSiteStopped m) (emitted m)
               (executed m1 ++ [DockerServe (name sb) p])).
  assert (H1 : serveSiteStart a requested_a m = (Returned (sa, p), m1)).
  { unfold serveSiteStart, getOrThrow, findAvailablePort. msimpl.
    by rewrite Ha, Hfa. }
  assert (H2 : serveSiteStart b requested_b m1 = (Returned (sb, p), m2)).
  { unfold serveSiteStart, getOrThrow, findAvailablePort. msimpl. simpl.
    by rewrite Hb, Hfb. }
  assert (H3 : ∃ m3,
    serveSiteSettle a sa p (ExecOk out_a err_a) m2 = (Returned p, m3) ∧
    sites m3 = <[a:=set_port (Some p) (set_status Serving sa)]> (sites m)).
  { unfold serveSiteSettle, sitesSet, emit, setupFileWatcher.
    msimpl. unfold m2, m1. simpl. rewrite Ha. simpl.
    eexists. split; reflexivity. }
  destruct H3 as (m3 & H3 & Hs3).
  assert (H4 : ∃ m4,
    serveSiteSettle b sb p (ExecOk out_b err_b) m3 = (Returned p, m4) ∧
    sites m4 = <[b:=set_port (Some p) (set_status Serving sb)]>
                 (<[a:=set_port (Some p) (set_status Serving sa)]> (sites m))).
  { unfold serveSiteSettle, sitesSet, emit, setupFileWatcher.
    msimpl. rewrite Hs3. rewrite lookup_insert_ne by assumption.
    rewrite Hb. simpl. eexists. split; [reflexivity|]. simpl.
    by rewrite Hs3. }
  destruct H4 as (m4 & H4 & Hs4).
  exists p, m1, m2, m3, m4.
  assert (Hsa : sites m4 !! a
                = Some (set_port (Some p) (set_status Serving sa))).
  { rewrite Hs4, lookup_insert_ne by congruence. apply lookup_insert_eq. }
  assert (Hsb : sites m4 !! b
                = Some (set_port (Some p) (set_status Serving sb))).
  { rewrite Hs4. apply lookup_insert_eq. }
  repeat (split; [assumption|]).
  intros Hdist.
  eapply (Hdist a b _ _ _ Hab Hsa Hsb); reflexivity.
Qed.

Lemma overlapping_serves_share_port_witness :
  ∃ m4,
    sites m4 !! "id-a" =
      Some (mkSite "id-a" "alpha" "/app/projects/alpha" Serving
                   (Some 4000%Z) 1 None) ∧
    sites m4 !! "id-b" =
      Some (mkSite "id-b" "beta" "/app/projects/beta" Serving
                   (Some 4000%Z) 2 None).
Proof.
  destruct (overlapping_serves_share_port Scenario.fleet "id-a" "id-b"
              (mkSite "id-a" "alpha" "/app/projects/alpha" Ready None 1 None)
              (mkSite "id-b" "beta" "/app/projects/beta" Ready None 2 None)
              None None "" "" "" "")
    as (p & m1 & m2 & m3 & m4 & Hstart & _ & _ & _ & Hsa & Hsb & _);
    [discriminate | vm_compute; reflexivity | vm_compute; reflexivity
    | reflexivity | reflexivity |].
  assert (Hp : p = 4000%Z).
  { revert Hstart. vm_compute. congruence. }
  subst p. exists m4. split; assumption.
Defined.

End OverlapProps.

Module EarlierWitnesses.
Import Manager Props Ops.

Lemma create_refuses_supplied_duplicate_witness :
  CreateRoute.handler (λ s, s) Middleware.validateSiteName true POST
    (Some "alpha") (Some "a blog")
    (inr (Scenario.structureNamed "gamma")) "id-c" 3 None Scenario.ok 4 5 6
    Scenario.fleet = (Some CreateRoute.NameExists, Scenario.fleet).
Proof.
  apply (CreateProps.create_refuses_supplied_duplicate (λ s, s)
           Middleware.validateSiteName Scenario.fleet "id-a"
           (mkSite "id-a" "alpha" "/app/projects/alpha" Ready None 1 None)
           "alpha" "a blog").
  - discriminate.
  - discriminate.
  - reflexivity.
  - discriminate.
  - vm_compute. reflexivity.
  - vm_compute. reflexivity.
Defined.

End EarlierWitnesses.
